(** * golang-lvs: the Service record, its text format and its validation

    A shallow embedding of [service.go] and of [parseHostPort], with the
    Go library functions they call, and the properties of the
    specification that concern them. *)

From Stdlib Require Import ZArith String Ascii List Bool Lia.
From Stdlib Require Import DecimalString DecimalZ DecimalPos DecimalN.
From stdpp Require Import base option list strings gmap.

Local Open Scope string_scope.
Local Open Scope Z_scope.
Local Open Scope list_scope.

(** ** Go library functions used by the package

    Go strings are byte sequences: [string] (a list of [ascii]) is the
    same data.  Go's [int] is taken to be 64 bits wide. *)

Module Go.

Definition MaxInt : Z := 2 ^ 63 - 1.
Definition MinInt : Z := - 2 ^ 63.

(** The values of type [int]. *)
Definition isInt (n : Z) : bool := (MinInt <=? n) && (n <=? MaxInt).

(** [strings.IndexByte]: the first position of [c], [None] for Go's -1. *)
Fixpoint IndexByte (s : string) (c : ascii) : option nat :=
  match s with
  | EmptyString => None
  | String a r =>
      if Ascii.eqb a c then Some O else option_map S (IndexByte r c)
  end.

(** [strings.LastIndexByte]: the last position of [c]. *)
Fixpoint LastIndexByte (s : string) (c : ascii) : option nat :=
  match s with
  | EmptyString => None
  | String a r =>
      match LastIndexByte r c with
      | Some k => Some (S k)
      | None => if Ascii.eqb a c then Some O else None
      end
  end.

(** The slice expressions [s[i:]] and [s[i:j]]. *)
Definition sliceFrom (s : string) (i : nat) : string :=
  String.substring i (String.length s - i) s.
Definition slice (s : string) (i j : nat) : string :=
  String.substring i (j - i) s.

(** [strings.Split(s, sep)] for a separator of one byte: the pieces
    between the occurrences of [sep], one more than there are
    occurrences. *)
Fixpoint Split (s : string) (sep : ascii) : list string :=
  match s with
  | EmptyString => [EmptyString]
  | String a r =>
      if Ascii.eqb a sep then EmptyString :: Split r sep
      else match Split r sep with
           | [] => [String a EmptyString]
           | t :: ts => String a t :: ts
           end
  end.

(** [strings.Join(elems, sep)]. *)
Definition Join (elems : list string) (sep : string) : string :=
  String.concat sep elems.

(** [fmt.Sprintf("%d", n)]: decimal digits, with a minus sign for a
    negative number. *)
Definition FormatInt (n : Z) : string :=
  NilEmpty.string_of_int (Z.to_int n).

(** The value of a decimal digit, as in [ch -= '0'; if ch > 9]. *)
Definition digit (c : ascii) : option Z :=
  let d := Z.of_nat (nat_of_ascii c) - 48 in
  if (0 <=? d) && (d <=? 9) then Some d else None.

(** The digit loop of [strconv.Atoi]: [n = n*10 + int(ch)]. *)
Fixpoint digits (s : string) (n : Z) : option Z :=
  match s with
  | EmptyString => Some n
  | String c r =>
      match digit c with
      | Some d => digits r (n * 10 + d)
      | None => None
      end
  end.

(** [strconv.Atoi]: an optional sign, then at least one decimal digit;
    [None] stands for a non-nil error (wrong syntax, or a value that
    does not fit [int]). *)
Definition Atoi (s : string) : option Z :=
  let neg :=
    match s with
    | String c _ => Ascii.eqb c "-"
    | EmptyString => false
    end in
  let body :=
    match s with
    | String c r => if Ascii.eqb c "-" || Ascii.eqb c "+" then r else s
    | EmptyString => s
    end in
  match body with
  | EmptyString => None
  | _ =>
      match digits body 0 with
      | Some n =>
          let v := if neg then - n else n in
          if isInt v then Some v else None
      | None => None
      end
  end.

(** [net.SplitHostPort]: the port starts after the last colon; a host
    in square brackets may itself contain colons.  [None] stands for
    a non-nil error. *)
Definition SplitHostPort (hostport : string) : option (string * string) :=
  match LastIndexByte hostport ":" with
  | None => None (* missing port in address *)
  | Some i =>
      let bracketed :=
        match hostport with
        | String c _ => Ascii.eqb c "["
        | EmptyString => false
        end in
      let parts : option (string * nat * nat) :=
        if bracketed then
          match IndexByte hostport "]" with
          | None => None (* missing ']' in address *)
          | Some e =>
              if Nat.eqb (e + 1) (String.length hostport) then None
              else if Nat.eqb (e + 1) i then Some (slice hostport 1 e, 1%nat, (e + 1)%nat)
              else None
          end
        else
          let host := slice hostport 0 i in
          match IndexByte host ":" with
          | Some _ => None (* too many colons in address *)
          | None => Some (host, O, O)
          end in
      match parts with
      | None => None
      | Some (host, j, k) =>
          match IndexByte (sliceFrom hostport j) "[" with
          | Some _ => None (* unexpected '[' in address *)
          | None =>
              match IndexByte (sliceFrom hostport k) "]" with
              | Some _ => None (* unexpected ']' in address *)
              | None => Some (host, sliceFrom hostport (i + 1))
              end
          end
      end
  end.

End Go.


(** ** The data model *)

(** Go's [error] values: the package's sentinel errors, and every other
    error (of the execution layer, of a server's own validation) by its
    message. *)
Inductive error : Type :=
| InvalidServiceType
| InvalidServiceScheduler
| InvalidServerPort
| OtherError (msg : string).

(** Modelled from the spec: the [Server] struct is declared in a file
    that is not part of the sources; the spec gives a backend real server
    a host and port, a forwarding method and a weight, and [service.go]
    reads [Host], [Port] and [Forwarder]. *)
Module Server.
Record t : Type := mk {
  Host : string;
  Port : Z;
  Forwarder : string;
  Weight : Z
}.
End Server.

Module Service.
Record t : Type := mk {
  Host : string;
  Port : Z;
  Type_ : string;
  Scheduler : string;
  Persistence : Z;
  Netmask : string;
  Servers : list Server.t
}.

Definition withServers (s : t) (servers : list Server.t) : t :=
  mk (Host s) (Port s) (Type_ s) (Scheduler s) (Persistence s) (Netmask s) servers.
Definition withHostPort (s : t) (hp : string * Z) : t :=
  mk (fst hp) (snd hp) (Type_ s) (Scheduler s) (Persistence s) (Netmask s) (Servers s).
Definition withType (s : t) (ty : string) : t :=
  mk (Host s) (Port s) ty (Scheduler s) (Persistence s) (Netmask s) (Servers s).
Definition withScheduler (s : t) (sched : string) : t :=
  mk (Host s) (Port s) (Type_ s) sched (Persistence s) (Netmask s) (Servers s).
Definition withPersistence (s : t) (p : Z) : t :=
  mk (Host s) (Port s) (Type_ s) (Scheduler s) p (Netmask s) (Servers s).
Definition withNetmask (s : t) (nm : string) : t :=
  mk (Host s) (Port s) (Type_ s) (Scheduler s) (Persistence s) nm (Servers s).
End Service.

(** A Go map from strings to strings: [m[k]] is the zero value [""] for
    a missing key, and [_, ok := m[k]] tells whether the key is there. *)
Definition mapIndex (m : gmap string string) (k : string) : string :=
  default "" (m !! k).
Definition mapHas (m : gmap string string) (k : string) : bool :=
  bool_decide (is_Some (m !! k)).

Definition ServiceTypeFlag : gmap string string :=
  <["tcp" := "-t"]> (<["udp" := "-u"]> (<["fwmark" := "-f"]> (<["" := "-t"]> ∅))).

Definition ServiceSchedulerFlag : gmap string string :=
  <["rr" := "rr"]> (<["wrr" := "wrr"]> (<["lc" := "lc"]> (<["wlc" := "wlc"]>
  (<["lblc" := "lblc"]> (<["lblcr" := "lblcr"]> (<["dh" := "dh"]> (<["sh" := "sh"]>
  (<["sed" := "sed"]> (<["nq" := "nq"]> (<["" := "wlc"]> ∅)))))))))).

(** The line feed that ends every line of [Service.String]. *)
Definition newline : string := String (ascii_of_nat 10) EmptyString.

(** ** Parsing *)

Definition parseHostPort (hostPort : string) : string * Z :=
  match Go.SplitHostPort hostPort with
  | None => (hostPort, 0)
  | Some (host, port) =>
      match Go.Atoi port with
      | None => (hostPort, 0)
      | Some intPort => (host, intPort)
      end
  end.

(** A [case] of the [switch]: the token is one of the listed strings. *)
Definition isCase (tok : string) (labels : list string) : bool :=
  existsb (String.eqb tok) labels.

(** One iteration of the loop of [parseService] at index [i]: [tok] is
    [exploded[i]] and [next] is [exploded[i+1]], [None] when [i+1] is
    past the end.  The result [None] is the run-time panic of the index
    expression out of range. *)
Definition parseStep (tok : string) (next : option string)
    (service : Service.t) : option Service.t :=
  if isCase tok ["-t"; "--tcp-service"] then
    arg ← next;
    Some (Service.withHostPort (Service.withType service "tcp") (parseHostPort arg))
  else if isCase tok ["-u"; "--udp-service"] then
    arg ← next;
    Some (Service.withHostPort (Service.withType service "udp") (parseHostPort arg))
  else if isCase tok ["-f"; "--fwmark-service"] then
    arg ← next;
    Some (Service.withHostPort (Service.withType service "fwmark") (parseHostPort arg))
  else if isCase tok ["-s"; "--scheduler"] then
    arg ← next;
    Some (Service.withScheduler service arg)
  else if isCase tok ["-p"; "--persistent"] then
    arg ← next;
    Some (Service.withPersistence service
            match Go.Atoi arg with
            | Some n => n
            | None => 300
            end)
  else if isCase tok ["-M"; "--netmask"] then
    arg ← next;
    Some (Service.withNetmask service arg)
  else Some service.

(** The body of the loop at index [i], with [exploded[i]] and
    [exploded[i+1]] looked up in the slice. *)
Definition parseAt (exploded : list string) (service : option Service.t) (i : nat)
    : option Service.t :=
  match service, exploded !! i with
  | Some service, Some tok => parseStep tok (exploded !! (i + 1)%nat) service
  | _, _ => None
  end.

Definition parseService (serviceString : string) : option Service.t :=
  let service := Service.mk "" 0 "tcp" "wlc" 300 "" [] in
  let exploded := Go.Split serviceString " " in
  fold_left (parseAt exploded) (seq 0 (length exploded)) (Some service).

(** The same loop on the tokens from index [i] on: the head of the list
    is [exploded[i]] and the head of its tail is [exploded[i+1]]. *)
Fixpoint parseTokens (exploded : list string) (service : Service.t)
    : option Service.t :=
  match exploded with
  | [] => Some service
  | tok :: rest =>
      match parseStep tok (head rest) service with
      | None => None
      | Some service' => parseTokens rest service'
      end
  end.

(** ** The execution collaborator

    [backend(command, args...)] runs the external tool.  The world is the
    list of the invocations made so far; the outcome of an invocation is
    given by an oracle that sees that history. *)

Definition Call : Type := string * list string.
Definition World : Type := list Call.
Definition Oracle : Type := World -> Call -> option error.

(** Computations that may invoke the tool. *)
Definition Exec (A : Type) : Type := World -> A * World.
Definition ret {A} (a : A) : Exec A := fun w => (a, w).
Definition bind {A B} (m : Exec A) (k : A -> Exec B) : Exec B :=
  fun w => let '(a, w') := m w in k a w'.

Notation "x <-- m ;; k" := (bind m (fun x => k))
  (at level 100, m at next level, right associativity).

(** The test [server.Host == host && server.Port == port] of the loops
    over the servers. *)
Definition sameAddress (server : Server.t) (host : string) (port : Z) : bool :=
  String.eqb (Server.Host server) host && (Server.Port server =? port).

(** What [service.go] takes from elsewhere, as parameters:
    [Server.Validate] and [Server.String], methods declared with the
    [Server] struct in a file that is not part of the sources, and the
    outcome [execute] of the external tool. *)
Class Collaborators : Type := {
  Server_Validate : Server.t -> option error;
  Server_String : Server.t -> string;
  execute : Oracle
}.

Section Methods.

Context `{Collaborators}.

(** Modelled from the spec: [backend] is declared outside the sources;
    the spec gives the execution layer as one synchronous call
    [run(command, args...)] that returns an error when the command
    fails.  The call is recorded and its outcome asked of the oracle. *)
Definition backend (command : string) (args : list string) : Exec (option error) :=
  fun w => (execute w (command, args), w ++ [(command, args)]).

(** The test [server.Forwarder != "m" && (s.Port != server.Port)],
    which follows the rules of ipvsadm. *)
Definition portRuleBroken (port : Z) (server : Server.t) : bool :=
  negb (String.eqb (Server.Forwarder server) "m")
  && negb (port =? Server.Port server).

(** The loop over the servers in [Service.Validate]. *)
Fixpoint validateServers (port : Z) (servers : list Server.t) : option error :=
  match servers with
  | [] => None
  | server :: rest =>
      match Server_Validate server with
      | Some err => Some err
      | None =>
          if portRuleBroken port server then Some InvalidServerPort
          else validateServers port rest
      end
  end.

Definition Service_Validate (s : Service.t) : option error :=
  if negb (mapHas ServiceTypeFlag (Service.Type_ s)) then Some InvalidServiceType
  else if negb (mapHas ServiceSchedulerFlag (Service.Scheduler s)) then
    Some InvalidServiceScheduler
  else validateServers (Service.Port s) (Service.Servers s).

Fixpoint findServer (servers : list Server.t) (host : string) (port : Z)
    : option Server.t :=
  match servers with
  | [] => None
  | server :: rest =>
      if sameAddress server host port
      then Some server
      else findServer rest host port
  end.

(** [FindServer]: the first server with that host and port, [None]
    for the nil pointer. *)
Definition FindServer (s : Service.t) (host : string) (port : Z) : option Server.t :=
  findServer (Service.Servers s) host port.

Definition getNetmask (s : Service.t) : list string :=
  if negb (String.eqb (Service.Netmask s) "") then ["-M"; Service.Netmask s]
  else [].

Definition getPersistence (s : Service.t) : list string :=
  if negb (Service.Persistence s =? 0) then ["-p"; Go.FormatInt (Service.Persistence s)]
  else [].

Definition getHostPort (s : Service.t) : string :=
  if Service.Port s =? 0 then Service.Host s
  else Service.Host s +:+ ":" +:+ Go.FormatInt (Service.Port s).

Definition Service_String (s : Service.t) : string :=
  let a :=
    ["-A " +:+ mapIndex ServiceTypeFlag (Service.Type_ s) +:+ " " +:+ getHostPort s
     +:+ " -s " +:+ mapIndex ServiceSchedulerFlag (Service.Scheduler s)
     +:+ " " +:+ Go.Join (getPersistence s) " "
     +:+ " " +:+ Go.Join (getNetmask s) " " +:+ newline] in
  let a :=
    a ++ map (fun server =>
                "-a " +:+ mapIndex ServiceTypeFlag (Service.Type_ s)
                +:+ " " +:+ Service.Host s +:+ ":" +:+ Go.FormatInt (Service.Port s)
                +:+ " -r " +:+ Server_String server +:+ newline)
           (Service.Servers s) in
  Go.Join a "".

(** The index of the first server with that host and port: the [i] at
    which the loops of [EditServer] and [RemoveServer] break. *)
Fixpoint firstMatch (servers : list Server.t) (host : string) (port : Z)
    : option nat :=
  match servers with
  | [] => None
  | server :: rest =>
      if sameAddress server host port
      then Some O
      else option_map S (firstMatch rest host port)
  end.

(** The methods with a pointer receiver return the updated record
    next to their error. *)
Definition AddServer (s : Service.t) (server : Server.t)
    : Exec (option error * Service.t) :=
  match Server_Validate server with
  | Some err => ret (Some err, s)
  | None =>
      if portRuleBroken (Service.Port s) server then ret (Some InvalidServerPort, s)
      else
        match FindServer s (Server.Host server) (Server.Port server) with
        | Some _ => ret (None, s)
        | None =>
            err <-- backend "ipvsadm"
                      (["-a"; mapIndex ServiceTypeFlag (Service.Type_ s); getHostPort s; "-r"]
                       ++ Go.Split (Server_String server) " ") ;;
            match err with
            | Some e => ret (Some e, s)
            | None => ret (None, Service.withServers s (Service.Servers s ++ [server]))
            end
        end
  end.

Definition EditServer (s : Service.t) (server : Server.t)
    : Exec (option error * Service.t) :=
  match Server_Validate server with
  | Some err => ret (Some err, s)
  | None =>
      if portRuleBroken (Service.Port s) server then ret (Some InvalidServerPort, s)
      else
        err <-- backend "ipvsadm"
                  (["-e"; mapIndex ServiceTypeFlag (Service.Type_ s); getHostPort s; "-r"]
                   ++ Go.Split (Server_String server) " ") ;;
        match err with
        | Some e => ret (Some e, s)
        | None =>
            match firstMatch (Service.Servers s) (Server.Host server) (Server.Port server) with
            | Some i =>
                ret (None, Service.withServers s
                             (take i (Service.Servers s)
                              ++ ([server] ++ drop (i + 1) (Service.Servers s))))
            | None => ret (None, s)
            end
        end
  end.

Definition RemoveServer (s : Service.t) (host : string) (port : Z)
    : Exec (option error * Service.t) :=
  err <-- backend "ipvsadm"
            ["-d"; mapIndex ServiceTypeFlag (Service.Type_ s); getHostPort s; "-r";
             host +:+ ":" +:+ Go.FormatInt port] ;;
  match err with
  | Some e => ret (Some e, s)
  | None =>
      match firstMatch (Service.Servers s) host port with
      | Some i =>
          ret (None, Service.withServers s
                       (take i (Service.Servers s) ++ drop (i + 1) (Service.Servers s)))
      | None => ret (None, s)
      end
  end.

Definition Add (s : Service.t) : Exec (option error) :=
  backend "ipvsadm"
    (["-A"; mapIndex ServiceTypeFlag (Service.Type_ s); getHostPort s; "-s";
      mapIndex ServiceSchedulerFlag (Service.Scheduler s)]
     ++ (getPersistence s ++ getNetmask s)).

Definition Remove (s : Service.t) : Exec (option error) :=
  backend "ipvsadm" ["-D"; mapIndex ServiceTypeFlag (Service.Type_ s); getHostPort s].

Definition Zero (s : Service.t) : Exec (option error) :=
  backend "ipvsadm" ["-Z"; mapIndex ServiceTypeFlag (Service.Type_ s); getHostPort s].

End Methods.

(** ** Reference definitions for the statements *)

(** The first server with the given host and port replaced by [server]. *)
Fixpoint replaceFirst (servers : list Server.t) (host : string) (port : Z)
    (server : Server.t) : list Server.t :=
  match servers with
  | [] => []
  | x :: rest =>
      if sameAddress x host port then server :: rest
      else x :: replaceFirst rest host port server
  end.

(** The first server with the given host and port deleted. *)
Fixpoint removeFirst (servers : list Server.t) (host : string) (port : Z)
    : list Server.t :=
  match servers with
  | [] => []
  | x :: rest =>
      if sameAddress x host port then rest
      else x :: removeFirst rest host port
  end.

Definition knownTypes : list string := ["tcp"; "udp"; "fwmark"; ""].
Definition knownSchedulers : list string :=
  ["rr"; "wrr"; "lc"; "wlc"; "lblc"; "lblcr"; "dh"; "sh"; "sed"; "nq"; ""].

(** A run of [m] from the world [w] invokes the tool exactly once, with
    the call [c]. *)
Definition invokes {A} (m : Exec A) (w : World) (c : Call) : Prop :=
  snd (m w) = w ++ [c].

(** A byte that is neither a digit nor the minus sign. *)
Definition nonNumeric (c : ascii) : Prop := Go.digit c = None /\ c <> "-"%char.

(** A host without space, colon or square bracket. *)
Definition plainHost (h : string) : Prop :=
  Go.IndexByte h " " = None /\ Go.IndexByte h ":" = None /\
  Go.IndexByte h "[" = None /\ Go.IndexByte h "]" = None.

(** The tokens that [parseService] reads as flags: the labels of its
    [switch]. *)
Definition flags : list string :=
  ["-t"; "--tcp-service"; "-u"; "--udp-service"; "-f"; "--fwmark-service";
   "-s"; "--scheduler"; "-p"; "--persistent"; "-M"; "--netmask"].

Definition isFlag (tok : string) : bool := isCase tok flags.

(** Tokens that leave a parsed record as it is: tokens that are no
    flags, and the type flag [tf] in front of the address [hp]. *)
Inductive harmless (tf hp : string) : list string -> Prop :=
| harmless_nil : harmless tf hp []
| harmless_other tok rest :
    isFlag tok = false -> harmless tf hp rest -> harmless tf hp (tok :: rest)
| harmless_type rest :
    harmless tf hp (hp :: rest) -> harmless tf hp (tf :: hp :: rest).

(** ** Instances of the collaborators, for the examples *)

(** A text in the style of ipvsadm for a server: its address, its
    forwarder as a flag and its weight. *)
Definition exampleServerString (r : Server.t) : string :=
  Server.Host r +:+ ":" +:+ Go.FormatInt (Server.Port r)
  +:+ " -" +:+ Server.Forwarder r +:+ " -w " +:+ Go.FormatInt (Server.Weight r).

(** Every server passes its own validation and the tool always
    succeeds. *)
Definition obligingTool : Collaborators :=
  {| Server_Validate := fun _ => None;
     Server_String := exampleServerString;
     execute := fun _ _ => None |}.

(** The tool fails the first time it is invoked and succeeds after. *)
Definition flakyTool : Collaborators :=
  {| Server_Validate := fun _ => None;
     Server_String := exampleServerString;
     execute := fun w _ =>
       match w with
       | [] => Some (OtherError "exit status 1")
       | _ :: _ => None
       end |}.

Definition exampleServer : Server.t := Server.mk "10.0.0.2" 80 "g" 1.
Definition exampleGateway : Server.t := Server.mk "10.0.0.3" 8080 "m" 2.
Definition exampleService : Service.t :=
  Service.mk "10.0.0.1" 80 "tcp" "wlc" 60 "" [exampleServer; exampleGateway].

Section Statements.

Context `{Collaborators}.

(** The calls made by the operations on the servers. *)
Definition addServerCall (s : Service.t) (server : Server.t) : Call :=
  ("ipvsadm",
   ["-a"; mapIndex ServiceTypeFlag (Service.Type_ s); getHostPort s; "-r"]
   ++ Go.Split (Server_String server) " ").
Definition editServerCall (s : Service.t) (server : Server.t) : Call :=
  ("ipvsadm",
   ["-e"; mapIndex ServiceTypeFlag (Service.Type_ s); getHostPort s; "-r"]
   ++ Go.Split (Server_String server) " ").
Definition removeServerCall (s : Service.t) (host : string) (port : Z) : Call :=
  ("ipvsadm",
   ["-d"; mapIndex ServiceTypeFlag (Service.Type_ s); getHostPort s; "-r";
    host +:+ ":" +:+ Go.FormatInt port]).

(** The call made by [Add], as the specification lists its arguments,
    and those of [Remove] and [Zero]. *)
Definition addCall (s : Service.t) : Call :=
  ("ipvsadm",
   ["-A"; mapIndex ServiceTypeFlag (Service.Type_ s);
    if decide (Service.Port s = 0) then Service.Host s
    else Service.Host s +:+ ":" +:+ Go.FormatInt (Service.Port s);
    "-s"; mapIndex ServiceSchedulerFlag (Service.Scheduler s)]
   ++ (if decide (Service.Persistence s = 0) then []
       else ["-p"; Go.FormatInt (Service.Persistence s)])
   ++ (if decide (Service.Netmask s = "") then []
       else ["-M"; Service.Netmask s])).

Definition removeCall (s : Service.t) : Call :=
  ("ipvsadm", ["-D"; mapIndex ServiceTypeFlag (Service.Type_ s); getHostPort s]).
Definition zeroCall (s : Service.t) : Call :=
  ("ipvsadm", ["-Z"; mapIndex ServiceTypeFlag (Service.Type_ s); getHostPort s]).

(** The servers of [s'] are those of [s] but for the first one with
    the address, which [change] maps to the servers that take its
    place; without such a server nothing changes. *)
Definition firstChanged (s s' : Service.t) (host : string) (port : Z)
    (change : Server.t -> list Server.t) : Prop :=
  s' = Service.withServers s (Service.Servers s') /\
  ((Forall (fun x => sameAddress x host port = false) (Service.Servers s) /\
    s' = s) \/
   (exists pre x post,
      Service.Servers s = pre ++ x :: post /\
      Forall (fun y => sameAddress y host port = false) pre /\
      sameAddress x host port = true /\
      Service.Servers s' = pre ++ change x ++ post)).

(** The error of one server in [Validate]: that of its own
    validation, else that of the port rule. *)
Definition serverError (port : Z) (server : Server.t) : option error :=
  match Server_Validate server with
  | Some e => Some e
  | None => if portRuleBroken port server then Some InvalidServerPort else None
  end.

(** The first line of [Service.String], without its line feed, and
    the line of one server. *)
Definition serviceLine (s : Service.t) : string :=
  "-A " +:+ mapIndex ServiceTypeFlag (Service.Type_ s) +:+ " " +:+ getHostPort s
  +:+ " -s " +:+ mapIndex ServiceSchedulerFlag (Service.Scheduler s)
  +:+ " " +:+ Go.Join (getPersistence s) " "
  +:+ " " +:+ Go.Join (getNetmask s) " ".

Definition address (s : Service.t) : string :=
  Service.Host s +:+ ":" +:+ Go.FormatInt (Service.Port s).

Definition serverLine (s : Service.t) (server : Server.t) : string :=
  "-a " +:+ mapIndex ServiceTypeFlag (Service.Type_ s)
  +:+ " " +:+ Service.Host s +:+ ":" +:+ Go.FormatInt (Service.Port s)
  +:+ " -r " +:+ Server_String server +:+ newline.

Fixpoint serverText (s : Service.t) (servers : list Server.t) : string :=
  match servers with
  | [] => ""
  | server :: rest => serverLine s server +:+ serverText s rest
  end.

(** A server whose text has no token that the parser reads as a
    flag. *)
Definition quietServer (server : Server.t) : Prop :=
  Forall (fun tok => isFlag tok = false) (Go.Split (Server_String server) " ").

(** What the parser reads for each field of a service. *)
Definition readType (ty : string) : string :=
  if String.eqb ty "" then "tcp" else ty.
Definition readScheduler (sched : string) : string :=
  if String.eqb sched "" then "wlc" else sched.
Definition readPersistence (p : Z) : Z := if p =? 0 then 300 else p.
Definition readNetmask (s : Service.t) : string :=
  if String.eqb (Service.Netmask s) "" then ""
  else Service.Netmask s +:+ newline
       +:+ match Service.Servers s with [] => "" | _ :: _ => "-a" end.

(** The conditions under which the text of a service is split into
    the tokens it was made of. *)
Definition readable (s : Service.t) : Prop :=
  plainHost (Service.Host s) /\
  (Service.Port s = 0 -> isFlag (Service.Host s) = false) /\
  Go.isInt (Service.Port s) = true /\
  Go.isInt (Service.Persistence s) = true /\
  Go.IndexByte (Service.Netmask s) " " = None /\
  Forall quietServer (Service.Servers s).

(** Equality on the six fields that the text of a service carries. *)
Definition sameFields (a b : Service.t) : Prop :=
  Service.Host a = Service.Host b /\ Service.Port a = Service.Port b /\
  Service.Type_ a = Service.Type_ b /\ Service.Scheduler a = Service.Scheduler b /\
  Service.Persistence a = Service.Persistence b /\
  Service.Netmask a = Service.Netmask b.

End Statements.

(** The address of a server, and lists of servers without two servers
    at one address. *)
Definition addressOf (r : Server.t) : string * Z := (Server.Host r, Server.Port r).
Definition uniqueAddresses (servers : list Server.t) : Prop :=
  List.NoDup (map addressOf servers).

(** Two more services for the examples: one without servers, one with
    a netmask and the defaults elsewhere. *)
Definition emptyService : Service.t := Service.mk "10.0.0.1" 80 "tcp" "wlc" 60 "" [].
Definition maskedService : Service.t :=
  Service.mk "10.0.0.1" 80 "udp" "" 0 "255.255.255.0" [].

(** ** Facts about the tables and the lists of servers *)

Lemma mapHas_ServiceTypeFlag ty :
  mapHas ServiceTypeFlag ty = true <-> In ty knownTypes.
Proof.
  unfold mapHas, ServiceTypeFlag, knownTypes.
  split.
  - rewrite bool_decide_eq_true, !lookup_insert_is_Some. simpl.
    pose proof (lookup_empty_is_Some (M:=gmap string) (A:=string) ty) as Hnil.
    tauto.
  - simpl. intros H.
    repeat (destruct H as [<-|H]; [vm_compute; reflexivity|]). destruct H.
Qed.

Lemma mapHas_ServiceSchedulerFlag sched :
  mapHas ServiceSchedulerFlag sched = true <-> In sched knownSchedulers.
Proof.
  unfold mapHas, ServiceSchedulerFlag, knownSchedulers.
  split.
  - rewrite bool_decide_eq_true, !lookup_insert_is_Some. simpl.
    pose proof (lookup_empty_is_Some (M:=gmap string) (A:=string) sched) as Hnil.
    tauto.
  - simpl. intros H.
    repeat (destruct H as [<-|H]; [vm_compute; reflexivity|]). destruct H.
Qed.

Lemma world_grows_ne (w : World) (c : Call) : w <> w ++ [c].
Proof.
  intros H. apply (f_equal length) in H. rewrite length_app in H. simpl in H. lia.
Qed.

Lemma firstMatch_None servers host port :
  firstMatch servers host port = None <->
  Forall (fun x => sameAddress x host port = false) servers.
Proof.
  induction servers as [|x rest IH]; simpl.
  - split; auto.
  - destruct (sameAddress x host port) eqn:E.
    + split; [discriminate|]. intros H. inversion H; congruence.
    + destruct (firstMatch rest host port); simpl.
      * split; [discriminate|]. intros H. inversion H as [|? ? _ Hrest]; subst.
        apply IH in Hrest. discriminate.
      * split; [|reflexivity]. intros _. constructor; [assumption|]. now apply IH.
Qed.

Lemma firstMatch_Some servers host port i :
  firstMatch servers host port = Some i ->
  exists pre x post,
    servers = pre ++ x :: post /\ length pre = i /\
    Forall (fun y => sameAddress y host port = false) pre /\
    sameAddress x host port = true.
Proof.
  revert i. induction servers as [|y rest IH]; simpl; intros i H; [discriminate|].
  destruct (sameAddress y host port) eqn:E.
  - injection H as <-. exists [], y, rest. auto.
  - destruct (firstMatch rest host port) as [k|]; simpl in H; [|discriminate].
    injection H as <-.
    destruct (IH k eq_refl) as (pre & x & post & -> & <- & Hpre & Hx).
    exists (y :: pre), x, post. repeat split; auto.
Qed.

Lemma take_drop_replaceFirst servers host port server i :
  firstMatch servers host port = Some i ->
  take i servers ++ ([server] ++ drop (i + 1) servers)
  = replaceFirst servers host port server.
Proof.
  revert i. induction servers as [|y rest IH]; simpl; intros i H; [discriminate|].
  destruct (sameAddress y host port).
  - injection H as <-. simpl. now rewrite drop_0.
  - destruct (firstMatch rest host port) as [k|]; simpl in H; [|discriminate].
    injection H as <-. simpl. f_equal. now apply IH.
Qed.

Lemma take_drop_removeFirst servers host port i :
  firstMatch servers host port = Some i ->
  take i servers ++ drop (i + 1) servers = removeFirst servers host port.
Proof.
  revert i. induction servers as [|y rest IH]; simpl; intros i H; [discriminate|].
  destruct (sameAddress y host port).
  - injection H as <-. simpl. now rewrite drop_0.
  - destruct (firstMatch rest host port) as [k|]; simpl in H; [|discriminate].
    injection H as <-. simpl. f_equal. now apply IH.
Qed.

Lemma replaceFirst_no_match servers host port server :
  firstMatch servers host port = None ->
  replaceFirst servers host port server = servers.
Proof.
  induction servers as [|y rest IH]; simpl; [reflexivity|].
  destruct (sameAddress y host port); [discriminate|].
  destruct (firstMatch rest host port); simpl; [discriminate|].
  intros _. f_equal. now apply IH.
Qed.

Lemma removeFirst_no_match servers host port :
  firstMatch servers host port = None ->
  removeFirst servers host port = servers.
Proof.
  induction servers as [|y rest IH]; simpl; [reflexivity|].
  destruct (sameAddress y host port); [discriminate|].
  destruct (firstMatch rest host port); simpl; [discriminate|].
  intros _. f_equal. now apply IH.
Qed.

Lemma withServers_same s : Service.withServers s (Service.Servers s) = s.
Proof. now destruct s. Qed.

(** ** The operations on the servers of a service *)

Section Operations.

Context `{Collaborators}.

(** What a run of each operation is, case by case. *)
Lemma AddServer_run s server w :
  AddServer s server w =
    match Server_Validate server with
    | Some err => (Some err, s, w)
    | None =>
        if portRuleBroken (Service.Port s) server then (Some InvalidServerPort, s, w)
        else match FindServer s (Server.Host server) (Server.Port server) with
             | Some _ => (None, s, w)
             | None =>
                 match execute w (addServerCall s server) with
                 | Some e => (Some e, s, w ++ [addServerCall s server])
                 | None =>
                     (None, Service.withServers s (Service.Servers s ++ [server]),
                      w ++ [addServerCall s server])
                 end
             end
    end.
Proof.
  unfold AddServer, addServerCall, bind, backend, ret.
  destruct (Server_Validate server); [reflexivity|].
  destruct (portRuleBroken _ _); [reflexivity|].
  destruct (FindServer _ _ _); [reflexivity|].
  destruct (execute w _); reflexivity.
Qed.

Lemma EditServer_run s server w :
  EditServer s server w =
    match Server_Validate server with
    | Some err => (Some err, s, w)
    | None =>
        if portRuleBroken (Service.Port s) server then (Some InvalidServerPort, s, w)
        else match execute w (editServerCall s server) with
             | Some e => (Some e, s, w ++ [editServerCall s server])
             | None =>
                 (None,
                  Service.withServers s
                    (replaceFirst (Service.Servers s) (Server.Host server)
                       (Server.Port server) server),
                  w ++ [editServerCall s server])
             end
    end.
Proof.
  unfold EditServer, editServerCall, bind, backend, ret.
  destruct (Server_Validate server); [reflexivity|].
  destruct (portRuleBroken _ _); [reflexivity|].
  destruct (execute w _); [reflexivity|].
  destruct (firstMatch _ _ _) as [i|] eqn:E.
  - now rewrite (take_drop_replaceFirst _ _ _ _ _ E).
  - now rewrite (replaceFirst_no_match _ _ _ _ E), withServers_same.
Qed.

Lemma RemoveServer_run s host port w :
  RemoveServer s host port w =
    match execute w (removeServerCall s host port) with
    | Some e => (Some e, s, w ++ [removeServerCall s host port])
    | None =>
        (None, Service.withServers s (removeFirst (Service.Servers s) host port),
         w ++ [removeServerCall s host port])
    end.
Proof.
  unfold RemoveServer, removeServerCall, bind, backend, ret.
  destruct (execute w _); [reflexivity|].
  destruct (firstMatch _ _ _) as [i|] eqn:E.
  - now rewrite (take_drop_removeFirst _ _ _ _ E).
  - now rewrite (removeFirst_no_match _ _ _ E), withServers_same.
Qed.

Lemma getHostPort_cases s :
  getHostPort s =
    if decide (Service.Port s = 0) then Service.Host s
    else Service.Host s +:+ ":" +:+ Go.FormatInt (Service.Port s).
Proof.
  unfold getHostPort. destruct (Z.eqb_spec (Service.Port s) 0); now case_decide.
Qed.

Lemma getPersistence_cases s :
  getPersistence s =
    if decide (Service.Persistence s = 0) then []
    else ["-p"; Go.FormatInt (Service.Persistence s)].
Proof.
  unfold getPersistence.
  destruct (Z.eqb_spec (Service.Persistence s) 0); now case_decide.
Qed.

Lemma getNetmask_cases s :
  getNetmask s =
    if decide (Service.Netmask s = "") then [] else ["-M"; Service.Netmask s].
Proof.
  unfold getNetmask.
  destruct (String.eqb_spec (Service.Netmask s) ""); now case_decide.
Qed.

Lemma Add_run s w : Add s w = (execute w (addCall s), w ++ [addCall s]).
Proof.
  unfold Add, backend, addCall.
  now rewrite getHostPort_cases, getPersistence_cases, getNetmask_cases.
Qed.

(** C5: [Add] invokes the tool once, with the arguments [-A], the type
    flag, the host (with [:port] unless the port is 0), [-s], the
    scheduler flag, then [-p] and the persistence exactly when it is
    not 0, then [-M] and the netmask exactly when it is not empty; its
    result is the outcome of that invocation. *)
Theorem C5_Add_arguments (s : Service.t) (w : World) :
  let hostport :=
    if decide (Service.Port s = 0) then Service.Host s
    else Service.Host s +:+ ":" +:+ Go.FormatInt (Service.Port s) in
  let args :=
    ["-A"; mapIndex ServiceTypeFlag (Service.Type_ s); hostport;
     "-s"; mapIndex ServiceSchedulerFlag (Service.Scheduler s)]
    ++ (if decide (Service.Persistence s = 0) then []
        else ["-p"; Go.FormatInt (Service.Persistence s)])
    ++ (if decide (Service.Netmask s = "") then []
        else ["-M"; Service.Netmask s]) in
  Add s w = (execute w ("ipvsadm", args), w ++ [("ipvsadm", args)]).
Proof. exact (Add_run s w). Qed.

(** C2: [RemoveServer] always invokes the tool, [EditServer] does when
    the server passes its validation and the port rule, and [AddServer]
    when moreover no server is at the address, and only then.  When the
    invocation fails, its error is returned and the record is
    unchanged; when it succeeds, nil is returned and the server is
    appended to the list, put in the place of the first server with
    its address, or the first server with the address is deleted. *)
Theorem C2_state_updated_only_on_success
    (s : Service.t) (server : Server.t) (host : string) (port : Z) (w : World) :
  (Server_Validate server = None ->
   portRuleBroken (Service.Port s) server = false ->
   FindServer s (Server.Host server) (Server.Port server) = None ->
   AddServer s server w =
     match execute w (addServerCall s server) with
     | Some e => (Some e, s, w ++ [addServerCall s server])
     | None =>
         (None, Service.withServers s (Service.Servers s ++ [server]),
          w ++ [addServerCall s server])
     end) /\
  (Server_Validate server = None ->
   portRuleBroken (Service.Port s) server = false ->
   EditServer s server w =
     match execute w (editServerCall s server) with
     | Some e => (Some e, s, w ++ [editServerCall s server])
     | None =>
         (None,
          Service.withServers s
            (replaceFirst (Service.Servers s) (Server.Host server)
               (Server.Port server) server),
          w ++ [editServerCall s server])
     end) /\
  RemoveServer s host port w =
    match execute w (removeServerCall s host port) with
    | Some e => (Some e, s, w ++ [removeServerCall s host port])
    | None =>
        (None, Service.withServers s (removeFirst (Service.Servers s) host port),
         w ++ [removeServerCall s host port])
    end /\
  (forall c,
     invokes (AddServer s server) w c <->
     Server_Validate server = None /\
     portRuleBroken (Service.Port s) server = false /\
     FindServer s (Server.Host server) (Server.Port server) = None /\
     c = addServerCall s server) /\
  (forall c,
     invokes (EditServer s server) w c <->
     Server_Validate server = None /\
     portRuleBroken (Service.Port s) server = false /\
     c = editServerCall s server) /\
  (forall c,
     invokes (RemoveServer s host port) w c <-> c = removeServerCall s host port).
Proof.
  unfold invokes. rewrite AddServer_run, EditServer_run, RemoveServer_run.
  split; [|split; [|split; [|split; [|split]]]].
  - now intros -> -> ->.
  - now intros -> ->.
  - reflexivity.
  - intros c. split.
    + repeat case_match; simpl; intros Hw;
        try (now apply world_grows_ne in Hw);
        apply app_inv_head in Hw; injection Hw as <-; auto.
    + intros (-> & -> & -> & ->). now destruct (execute w _).
  - intros c. split.
    + repeat case_match; simpl; intros Hw;
        try (now apply world_grows_ne in Hw);
        apply app_inv_head in Hw; injection Hw as <-; auto.
    + intros (-> & -> & ->). now destruct (execute w _).
  - intros c. split.
    + case_match; simpl; intros Hw;
        apply app_inv_head in Hw; now injection Hw as <-.
    + intros ->. now destruct (execute w _).
Qed.

(** C7 (amended): [Add], [Remove], [Zero] and [RemoveServer] invoke
    the tool once and return its outcome as it is, nil exactly when it
    succeeds and its own error otherwise.  [EditServer] does so when
    the server passes its validation and the port rule, and
    [AddServer] when moreover no server is at the address; otherwise
    they do not invoke the tool and return the error of the validation,
    [InvalidServerPort], or nil for an address that is already
    there. *)
Theorem C7_errors_surfaced_unchanged
    (s : Service.t) (server : Server.t) (host : string) (port : Z) (w : World) :
  Add s w = (execute w (addCall s), w ++ [addCall s]) /\
  Remove s w = (execute w (removeCall s), w ++ [removeCall s]) /\
  Zero s w = (execute w (zeroCall s), w ++ [zeroCall s]) /\
  (fst (fst (RemoveServer s host port w)), snd (RemoveServer s host port w))
  = (execute w (removeServerCall s host port), w ++ [removeServerCall s host port]) /\
  (fst (fst (EditServer s server w)), snd (EditServer s server w))
  = match Server_Validate server with
    | Some err => (Some err, w)
    | None =>
        if portRuleBroken (Service.Port s) server then (Some InvalidServerPort, w)
        else (execute w (editServerCall s server), w ++ [editServerCall s server])
    end /\
  (fst (fst (AddServer s server w)), snd (AddServer s server w))
  = match Server_Validate server with
    | Some err => (Some err, w)
    | None =>
        if portRuleBroken (Service.Port s) server then (Some InvalidServerPort, w)
        else match FindServer s (Server.Host server) (Server.Port server) with
             | Some _ => (None, w)
             | None =>
                 (execute w (addServerCall s server), w ++ [addServerCall s server])
             end
    end.
Proof.
  split; [apply Add_run|].
  split; [reflexivity|]. split; [reflexivity|].
  rewrite AddServer_run, EditServer_run, RemoveServer_run.
  repeat split; repeat case_match; reflexivity.
Qed.

Lemma validateServers_app port pre post :
  validateServers port (pre ++ post) =
    match validateServers port pre with
    | Some e => Some e
    | None => validateServers port post
    end.
Proof.
  induction pre as [|x pre IH]; simpl; [reflexivity|].
  destruct (Server_Validate x); [reflexivity|].
  destruct (portRuleBroken port x); [reflexivity|]. apply IH.
Qed.

Lemma validateServers_In port servers r :
  In r servers -> portRuleBroken port r = true ->
  validateServers port servers <> None.
Proof.
  induction servers as [|x rest IH]; simpl; [tauto|].
  intros [->|Hin] Hr.
  - destruct (Server_Validate r); [discriminate|]. now rewrite Hr.
  - destruct (Server_Validate x); [discriminate|].
    destruct (portRuleBroken port x); [discriminate|]. now apply IH.
Qed.

Lemma portRuleBroken_true port r :
  portRuleBroken port r = true <->
  Server.Forwarder r <> "m" /\ Server.Port r <> port.
Proof.
  unfold portRuleBroken. rewrite andb_true_iff, !negb_true_iff.
  rewrite String.eqb_neq, Z.eqb_neq. intuition congruence.
Qed.

Lemma portRuleBroken_masquerade port r :
  Server.Forwarder r = "m" -> portRuleBroken port r = false.
Proof. unfold portRuleBroken. now intros ->. Qed.

(** C3 (amended): a server whose forwarder is not "m" and whose port
    differs from the port of the service makes [Validate] fail when it
    is among the servers, with [InvalidServerPort] when the type and
    scheduler are known, the servers before it pass and it passes its
    own validation; [AddServer] and [EditServer] return an error, leave
    the record as it is and do not invoke the tool, and the error is
    [InvalidServerPort] unless the validation of the server, which
    comes first, gives its own.  With the forwarder "m" a server that
    passes its own validation is accepted whatever its port:
    [EditServer] invokes the tool, [AddServer] does unless the address
    is already there, and [Validate] accepts a service with a known
    type and scheduler whose servers are all such. *)
Theorem C3_port_rule (s : Service.t) (r : Server.t) (w : World) :
  (Server.Forwarder r <> "m" -> Server.Port r <> Service.Port s ->
     (In r (Service.Servers s) -> Service_Validate s <> None) /\
     (forall pre post,
        mapHas ServiceTypeFlag (Service.Type_ s) = true ->
        mapHas ServiceSchedulerFlag (Service.Scheduler s) = true ->
        Service.Servers s = pre ++ r :: post ->
        validateServers (Service.Port s) pre = None ->
        Server_Validate r = None ->
        Service_Validate s = Some InvalidServerPort) /\
     AddServer s r w = (Some (default InvalidServerPort (Server_Validate r)), s, w) /\
     EditServer s r w = (Some (default InvalidServerPort (Server_Validate r)), s, w)) /\
  (Server.Forwarder r = "m" -> Server_Validate r = None ->
     invokes (EditServer s r) w (editServerCall s r) /\
     (FindServer s (Server.Host r) (Server.Port r) = None ->
        invokes (AddServer s r) w (addServerCall s r)) /\
     (FindServer s (Server.Host r) (Server.Port r) <> None ->
        AddServer s r w = (None, s, w))) /\
  (mapHas ServiceTypeFlag (Service.Type_ s) = true ->
   mapHas ServiceSchedulerFlag (Service.Scheduler s) = true ->
   Forall (fun x => Server_Validate x = None /\ Server.Forwarder x = "m")
     (Service.Servers s) ->
   Service_Validate s = None).
Proof.
  split; [|split].
  - intros Hf Hp.
    assert (Hr : portRuleBroken (Service.Port s) r = true)
      by now apply portRuleBroken_true.
    split; [|split].
    + intros Hin. unfold Service_Validate.
      destruct (mapHas ServiceTypeFlag _); [|discriminate].
      destruct (mapHas ServiceSchedulerFlag _); [|discriminate]. simpl.
      now apply validateServers_In with r.
    + intros pre post Ht Hs Hl Hpre Hv. unfold Service_Validate.
      rewrite Ht, Hs, Hl, validateServers_app, Hpre. simpl.
      now rewrite Hv, Hr.
    + rewrite AddServer_run, EditServer_run, Hr.
      now destruct (Server_Validate r).
  - intros Hf Hv. unfold invokes.
    rewrite AddServer_run, EditServer_run, Hv, portRuleBroken_masquerade by assumption.
    split; [|split].
    + now destruct (execute w _).
    + intros ->. now destruct (execute w _).
    + now destruct (FindServer _ _ _).
  - intros Ht Hs Hall. unfold Service_Validate. rewrite Ht, Hs. simpl.
    induction Hall as [|x l [Hv Hf] _ IH]; simpl; [reflexivity|].
    now rewrite Hv, portRuleBroken_masquerade.
Qed.

Lemma sameAddress_refl r : sameAddress r (Server.Host r) (Server.Port r) = true.
Proof. unfold sameAddress. now rewrite String.eqb_refl, Z.eqb_refl. Qed.

Lemma findServer_app_last servers r :
  findServer (servers ++ [r]) (Server.Host r) (Server.Port r) <> None.
Proof.
  induction servers as [|x rest IH]; simpl.
  - now rewrite sameAddress_refl.
  - now destruct (sameAddress x _ _).
Qed.

(** C8 (amended): when the server passes its own validation and the
    port rule, and the service already holds a server with its host
    and port, [AddServer] returns nil, does not invoke the tool and
    leaves the record as it is; hence after a call of [AddServer] that
    returned nil, the same call again returns nil, does not invoke the
    tool and leaves the record as the first call left it. *)
Theorem C8_AddServer_idempotent (s : Service.t) (r : Server.t) (w : World) :
  (Server_Validate r = None ->
   portRuleBroken (Service.Port s) r = false ->
   FindServer s (Server.Host r) (Server.Port r) <> None ->
   AddServer s r w = (None, s, w)) /\
  (forall s1 w1,
     AddServer s r w = (None, s1, w1) ->
     AddServer s1 r w1 = (None, s1, w1)).
Proof.
  split.
  - intros Hv Hp Hf. rewrite AddServer_run, Hv, Hp.
    now destruct (FindServer _ _ _).
  - intros s1 w1. rewrite !AddServer_run.
    destruct (Server_Validate r); [discriminate|].
    destruct (portRuleBroken (Service.Port s) r) eqn:Hp; [discriminate|].
    destruct (FindServer s _ _) eqn:Hf.
    + intros [= <- <-]. now rewrite Hp, Hf.
    + destruct (execute w _); [discriminate|].
      intros [= <- <-]. simpl. rewrite Hp.
      unfold FindServer. simpl.
      pose proof (findServer_app_last (Service.Servers s) r) as Hl.
      now destruct (findServer _ _ _).
Qed.

Lemma replaceFirst_frame servers host port server :
  (Forall (fun x => sameAddress x host port = false) servers /\
   replaceFirst servers host port server = servers) \/
  (exists pre x post,
     servers = pre ++ x :: post /\
     Forall (fun y => sameAddress y host port = false) pre /\
     sameAddress x host port = true /\
     replaceFirst servers host port server = pre ++ server :: post).
Proof.
  induction servers as [|y rest IH]; simpl.
  - left. auto.
  - destruct (sameAddress y host port) eqn:E.
    + right. exists [], y, rest. auto.
    + destruct IH as [[Hall Heq]|(pre & x & post & -> & Hpre & Hx & Heq)].
      * left. split; [auto|congruence].
      * right. exists (y :: pre), x, post. simpl. rewrite Heq. auto.
Qed.

Lemma removeFirst_frame servers host port :
  (Forall (fun x => sameAddress x host port = false) servers /\
   removeFirst servers host port = servers) \/
  (exists pre x post,
     servers = pre ++ x :: post /\
     Forall (fun y => sameAddress y host port = false) pre /\
     sameAddress x host port = true /\
     removeFirst servers host port = pre ++ post).
Proof.
  induction servers as [|y rest IH]; simpl.
  - left. auto.
  - destruct (sameAddress y host port) eqn:E.
    + right. exists [], y, rest. auto.
    + destruct IH as [[Hall Heq]|(pre & x & post & -> & Hpre & Hx & Heq)].
      * left. split; [auto|congruence].
      * right. exists (y :: pre), x, post. simpl. rewrite Heq. auto.
Qed.

(** C9: a call of [EditServer] or [RemoveServer] that returns nil
    leaves every field but the servers as it was, and changes the
    servers at most at the first one with the address, which is
    replaced by the given server or deleted; the servers before and
    after it keep their values and their order; when no server has the
    address the record is unchanged, and the call returns nil as soon
    as the invocation succeeds. *)
Theorem C9_frame_of_Edit_and_Remove
    (s : Service.t) (server : Server.t) (host : string) (port : Z) (w : World) :
  (forall s' w', EditServer s server w = (None, s', w') ->
     firstChanged s s' (Server.Host server) (Server.Port server)
       (fun _ => [server])) /\
  (forall s' w', RemoveServer s host port w = (None, s', w') ->
     firstChanged s s' host port (fun _ => [])) /\
  (Forall (fun x => sameAddress x (Server.Host server) (Server.Port server) = false)
     (Service.Servers s) ->
   Server_Validate server = None ->
   portRuleBroken (Service.Port s) server = false ->
   execute w (editServerCall s server) = None ->
   EditServer s server w = (None, s, w ++ [editServerCall s server])) /\
  (Forall (fun x => sameAddress x host port = false) (Service.Servers s) ->
   execute w (removeServerCall s host port) = None ->
   RemoveServer s host port w = (None, s, w ++ [removeServerCall s host port])).
Proof.
  unfold firstChanged. split; [|split; [|split]].
  - intros s' w'. rewrite EditServer_run. repeat case_match; try discriminate.
    intros [= <- <-]. split; [reflexivity|]. simpl.
    destruct (replaceFirst_frame (Service.Servers s) (Server.Host server)
                (Server.Port server) server)
      as [[Hall Heq]|(pre & x & post & Hl & Hpre & Hx & Heq)].
    + left. split; [assumption|]. rewrite Heq. apply withServers_same.
    + right. exists pre, x, post. auto.
  - intros s' w'. rewrite RemoveServer_run. repeat case_match; try discriminate.
    intros [= <- <-]. split; [reflexivity|]. simpl.
    destruct (removeFirst_frame (Service.Servers s) host port)
      as [[Hall Heq]|(pre & x & post & Hl & Hpre & Hx & Heq)].
    + left. split; [assumption|]. rewrite Heq. apply withServers_same.
    + right. exists pre, x, post. auto.
  - intros Hall Hv Hp He. rewrite EditServer_run, Hv, Hp, He.
    apply firstMatch_None in Hall.
    now rewrite replaceFirst_no_match, withServers_same.
  - intros Hall He. rewrite RemoveServer_run, He.
    apply firstMatch_None in Hall.
    now rewrite removeFirst_no_match, withServers_same.
Qed.

Lemma validateServers_cons port x rest :
  validateServers port (x :: rest) =
    match serverError port x with
    | Some e => Some e
    | None => validateServers port rest
    end.
Proof.
  unfold serverError. simpl.
  destruct (Server_Validate x); [reflexivity|].
  now destruct (portRuleBroken port x).
Qed.

Lemma validateServers_None port servers :
  validateServers port servers = None <->
  Forall (fun x => serverError port x = None) servers.
Proof.
  induction servers as [|x rest IH]; [simpl; split; auto|].
  rewrite validateServers_cons.
  destruct (serverError port x) eqn:E.
  - split; [discriminate|]. intros Hall. inversion Hall; congruence.
  - rewrite IH. split.
    + intros Hall. now constructor.
    + intros Hall. now inversion Hall.
Qed.

Lemma validateServers_Some port servers e :
  validateServers port servers = Some e <->
  exists pre r post,
    servers = pre ++ r :: post /\
    Forall (fun x => serverError port x = None) pre /\
    serverError port r = Some e.
Proof.
  induction servers as [|x rest IH].
  - simpl. split; [discriminate|].
    intros (pre & r & post & Hl & _). now destruct pre.
  - rewrite validateServers_cons.
    destruct (serverError port x) eqn:E.
    + split.
      * intros [= ->]. exists [], x, rest. auto.
      * intros (pre & r & post & Hl & Hpre & Hr).
        destruct pre as [|y pre]; simpl in Hl; injection Hl as -> ->.
        -- congruence.
        -- inversion Hpre; congruence.
    + rewrite IH. split.
      * intros (pre & r & post & -> & Hpre & Hr).
        exists (x :: pre), r, post. auto.
      * intros (pre & r & post & Hl & Hpre & Hr).
        destruct pre as [|y pre]; simpl in Hl; injection Hl as -> ->.
        -- congruence.
        -- exists pre, r, post. inversion Hpre; auto.
Qed.

(** C4: [Validate] returns [InvalidServiceType] when the type is none
    of the four known ones; otherwise [InvalidServiceScheduler] when
    the scheduler is none of the eleven known ones; otherwise the
    error of the first server, in the order of the list, that fails
    its validation or the port rule, and nil when no server fails.
    When the validation of a server never returns one of the two
    errors of the service, each of them is returned exactly in its
    case. *)
Theorem C4_Validate_decision (s : Service.t) :
  (~ In (Service.Type_ s) knownTypes ->
   Service_Validate s = Some InvalidServiceType) /\
  (In (Service.Type_ s) knownTypes ->
   ~ In (Service.Scheduler s) knownSchedulers ->
   Service_Validate s = Some InvalidServiceScheduler) /\
  (In (Service.Type_ s) knownTypes ->
   In (Service.Scheduler s) knownSchedulers ->
   (forall e,
      Service_Validate s = Some e <->
      exists pre r post,
        Service.Servers s = pre ++ r :: post /\
        Forall (fun x => serverError (Service.Port s) x = None) pre /\
        serverError (Service.Port s) r = Some e) /\
   (Service_Validate s = None <->
    Forall (fun x => serverError (Service.Port s) x = None) (Service.Servers s))) /\
  ((forall r, Server_Validate r <> Some InvalidServiceType /\
              Server_Validate r <> Some InvalidServiceScheduler) ->
   (Service_Validate s = Some InvalidServiceType <->
    ~ In (Service.Type_ s) knownTypes) /\
   (Service_Validate s = Some InvalidServiceScheduler <->
    In (Service.Type_ s) knownTypes /\ ~ In (Service.Scheduler s) knownSchedulers)).
Proof.
  unfold Service_Validate.
  pose proof (mapHas_ServiceTypeFlag (Service.Type_ s)) as Ht.
  pose proof (mapHas_ServiceSchedulerFlag (Service.Scheduler s)) as Hs.
  destruct (mapHas ServiceTypeFlag _); cbn [negb];
    [destruct (mapHas ServiceSchedulerFlag _); cbn [negb]|].
  - assert (Hty : In (Service.Type_ s) knownTypes) by now apply Ht.
    assert (Hsc : In (Service.Scheduler s) knownSchedulers) by now apply Hs.
    split; [tauto|]. split; [tauto|]. split.
    + intros _ _. split.
      * intros e. apply validateServers_Some.
      * apply validateServers_None.
    + intros Hsrv.
      assert (Hne : forall e,
                 validateServers (Service.Port s) (Service.Servers s) = Some e ->
                 e <> InvalidServiceType /\ e <> InvalidServiceScheduler).
      { intros e He. apply validateServers_Some in He.
        destruct He as (pre & r & post & _ & _ & Hr).
        unfold serverError in Hr. destruct (Hsrv r) as [H1 H2].
        destruct (Server_Validate r) as [e'|].
        - injection Hr as ->. split; congruence.
        - destruct (portRuleBroken _ r); [|discriminate].
          injection Hr as <-. split; discriminate. }
      split; split; try tauto; intros He; apply Hne in He; tauto.
  - assert (Hty : In (Service.Type_ s) knownTypes) by now apply Ht.
    assert (Hsc : ~ In (Service.Scheduler s) knownSchedulers).
    { intros Hin. apply Hs in Hin. discriminate. }
    split; [tauto|]. split; [tauto|]. split; [intros; exfalso; tauto|].
    intros _. split; split; try tauto; discriminate.
  - assert (Hty : ~ In (Service.Type_ s) knownTypes).
    { intros Hin. apply Ht in Hin. discriminate. }
    split; [tauto|]. split; [tauto|]. split; [intros; exfalso; tauto|].
    intros _. split; split; try tauto; discriminate.
Qed.

End Operations.

(** ** Facts about the Go library functions *)

Module GoFacts.

Import Go.

Lemma app_cons c a b : String c a +:+ b = String c (a +:+ b).
Proof. reflexivity. Qed.

Lemma app_nil_l b : "" +:+ b = b.
Proof. reflexivity. Qed.

Lemma app_nil_r a : a +:+ "" = a.
Proof. induction a as [|c a IH]; [reflexivity|]. now rewrite app_cons, IH. Qed.

Lemma app_assoc a b c : (a +:+ b) +:+ c = a +:+ (b +:+ c).
Proof. induction a as [|x a IH]; [reflexivity|]. now rewrite !app_cons, IH. Qed.

(** *** Bytes of a string *)

Lemma IndexByte_cons_None x r c :
  IndexByte (String x r) c = None <-> x <> c /\ IndexByte r c = None.
Proof.
  simpl. destruct (Ascii.eqb_spec x c) as [->|Hne].
  - split; [discriminate|tauto].
  - destruct (IndexByte r c); simpl; split; try discriminate; try tauto.
    now intros [_ ?].
Qed.

Lemma IndexByte_app_None a b c :
  IndexByte (a +:+ b) c = None <-> IndexByte a c = None /\ IndexByte b c = None.
Proof.
  induction a as [|x a IH]; [rewrite app_nil_l; simpl; tauto|].
  rewrite app_cons, !IndexByte_cons_None, IH. tauto.
Qed.

Lemma LastIndexByte_None s c :
  LastIndexByte s c = None <-> IndexByte s c = None.
Proof.
  induction s as [|x r IH]; [simpl; tauto|].
  rewrite IndexByte_cons_None, <- IH. simpl.
  destruct (LastIndexByte r c).
  - split; [discriminate|]. now intros [_ ?].
  - destruct (Ascii.eqb_spec x c); split; try discriminate; try tauto; auto.
Qed.

Lemma LastIndexByte_app a b c :
  IndexByte b c = None ->
  LastIndexByte (a +:+ String c b) c = Some (String.length a).
Proof.
  intros Hb. apply LastIndexByte_None in Hb.
  induction a as [|x a IH].
  - rewrite app_nil_l. simpl. now rewrite Hb, Ascii.eqb_refl.
  - rewrite app_cons. simpl. now rewrite IH.
Qed.

Lemma substring_all s : String.substring 0 (String.length s) s = s.
Proof. induction s as [|x r IH]; [reflexivity|]. simpl. now rewrite IH. Qed.

Lemma substring_prefix a b :
  String.substring 0 (String.length a) (a +:+ b) = a.
Proof.
  induction a as [|x a IH]; [now destruct b|].
  rewrite app_cons. simpl. now rewrite IH.
Qed.

Lemma substring_skip a b n :
  String.substring (String.length a) n (a +:+ b) = String.substring 0 n b.
Proof.
  induction a as [|x a IH]; [reflexivity|]. rewrite app_cons. simpl. apply IH.
Qed.

Lemma length_app a b :
  String.length (a +:+ b) = (String.length a + String.length b)%nat.
Proof.
  induction a as [|x a IH]; [reflexivity|]. rewrite app_cons. simpl. now rewrite IH.
Qed.

(** *** [Split] *)

Lemma Split_nonempty s sep : Split s sep <> [].
Proof.
  destruct s as [|x r]; simpl; [discriminate|].
  destruct (Ascii.eqb x sep); [discriminate|]. now destruct (Split r sep).
Qed.

Lemma Split_hd_tl s sep :
  Split s sep = hd "" (Split s sep) :: tl (Split s sep).
Proof. pose proof (Split_nonempty s sep). now destruct (Split s sep). Qed.

Lemma Split_cons_other x r sep :
  x <> sep ->
  Split (String x r) sep = String x (hd "" (Split r sep)) :: tl (Split r sep).
Proof.
  intros Hne. simpl. destruct (Ascii.eqb_spec x sep); [contradiction|].
  pose proof (Split_nonempty r sep). now destruct (Split r sep).
Qed.

Lemma Split_cons_sep r sep : Split (String sep r) sep = "" :: Split r sep.
Proof. simpl. now rewrite Ascii.eqb_refl. Qed.

(** A piece without separator in front of the rest. *)
Lemma Split_app_piece a b sep :
  IndexByte a sep = None ->
  Split (a +:+ b) sep = (a +:+ hd "" (Split b sep)) :: tl (Split b sep).
Proof.
  induction a as [|x a IH]; intros Ha.
  - rewrite !app_nil_l. apply Split_hd_tl.
  - apply IndexByte_cons_None in Ha as [Hx Ha].
    rewrite !app_cons, Split_cons_other by assumption.
    now rewrite IH.
Qed.

Lemma Split_token a b sep :
  IndexByte a sep = None ->
  Split (a +:+ String sep b) sep = a :: Split b sep.
Proof.
  intros Ha. rewrite Split_app_piece, Split_cons_sep by assumption. simpl.
  now rewrite app_nil_r.
Qed.

Lemma Split_single a sep : IndexByte a sep = None -> Split a sep = [a].
Proof.
  intros Ha. rewrite <- (app_nil_r a) at 1.
  rewrite Split_app_piece by assumption. simpl. now rewrite app_nil_r.
Qed.

(** The pieces of [a +:+ b]: those of [a], the last of which is glued
    to the first of [b], then the other pieces of [b]. *)
Lemma Split_app a b sep :
  Split (a +:+ b) sep =
    removelast (Split a sep)
    ++ (List.last (Split a sep) "" +:+ hd "" (Split b sep)) :: tl (Split b sep).
Proof.
  induction a as [|x a IH].
  - rewrite app_nil_l. simpl. apply Split_hd_tl.
  - rewrite app_cons. pose proof (Split_nonempty a sep) as Hne.
    destruct (Ascii.eqb_spec x sep) as [->|Hx].
    + rewrite !Split_cons_sep, IH.
      destruct (Split a sep) as [|t ts]; [contradiction|]. reflexivity.
    + rewrite !Split_cons_other, IH by assumption.
      destruct (Split a sep) as [|t ts]; [contradiction|].
      destruct ts as [|u us]; reflexivity.
Qed.

Lemma Split_pieces_no_sep s sep :
  Forall (fun t => IndexByte t sep = None) (Split s sep).
Proof.
  induction s as [|x r IH]; [repeat constructor|].
  destruct (Ascii.eqb_spec x sep) as [->|Hx].
  - rewrite Split_cons_sep. now constructor.
  - rewrite Split_cons_other by assumption. rewrite Split_hd_tl in IH.
    inversion IH as [|? ? Hh Ht]; subst. constructor; [|assumption].
    now apply IndexByte_cons_None.
Qed.

(** *** Decimal numbers *)

Lemma string_of_uint_bytes d c :
  digit c = None -> IndexByte (NilEmpty.string_of_uint d) c = None.
Proof.
  intros Hc. induction d; cbn [NilEmpty.string_of_uint]; [reflexivity|..];
    (apply IndexByte_cons_None; split; [intros <-; discriminate Hc|assumption]).
Qed.

Lemma FormatInt_bytes n c : nonNumeric c -> IndexByte (FormatInt n) c = None.
Proof.
  intros [Hd Hm]. unfold FormatInt.
  destruct (Z.to_int n) as [d|d]; cbn [NilEmpty.string_of_int].
  - now apply string_of_uint_bytes.
  - apply IndexByte_cons_None. split; [congruence|].
    now apply string_of_uint_bytes.
Qed.

Lemma digits_of_uint_acc d acc :
  digits (NilEmpty.string_of_uint d) (Z.pos acc) = Some (Z.pos (Pos.of_uint_acc d acc)).
Proof.
  revert acc. induction d; intros acc; simpl; [reflexivity|..];
    unfold digit; simpl; rewrite <- IHd; f_equal;
    set (k := Z.of_nat (nat_of_ascii _)); vm_compute in k; subst k; lia.
Qed.

Lemma digits_of_uint d :
  digits (NilEmpty.string_of_uint d) 0 = Some (Z.of_N (Pos.of_uint d)).
Proof.
  induction d; simpl; [reflexivity|assumption|..];
    unfold digit; simpl; apply digits_of_uint_acc.
Qed.

Lemma string_of_uint_first d :
  d <> Decimal.Nil ->
  exists c r, NilEmpty.string_of_uint d = String c r /\ digit c <> None.
Proof.
  destruct d; [congruence|..]; intros _; simpl; eexists _, _;
    (split; [reflexivity|discriminate]).
Qed.

Lemma Atoi_unsigned d :
  d <> Decimal.Nil ->
  Atoi (NilEmpty.string_of_uint d) =
    if isInt (Z.of_N (Pos.of_uint d)) then Some (Z.of_N (Pos.of_uint d)) else None.
Proof.
  intros Hd. unfold Atoi.
  pose proof (digits_of_uint d) as Hdig.
  destruct (string_of_uint_first d Hd) as (c & r & Hs & Hc).
  rewrite Hs in *.
  assert (Hm : Ascii.eqb c "-" = false).
  { destruct (Ascii.eqb_spec c "-") as [->|]; [now elim Hc|reflexivity]. }
  assert (Hp : Ascii.eqb c "+" = false).
  { destruct (Ascii.eqb_spec c "+") as [->|]; [now elim Hc|reflexivity]. }
  rewrite Hm, Hp. cbn [orb]. cbv iota. now rewrite Hdig.
Qed.

(** Reading back a printed [int] gives the number. *)
Lemma Atoi_FormatInt n : isInt n = true -> Atoi (FormatInt n) = Some n.
Proof.
  intros Hn. unfold FormatInt. destruct n as [|p|p]; simpl Z.to_int.
  - reflexivity.
  - simpl NilEmpty.string_of_int.
    rewrite Atoi_unsigned by apply DecimalPos.Unsigned.to_uint_nonnil.
    rewrite DecimalPos.Unsigned.of_to. simpl Z.of_N. now rewrite Hn.
  - simpl NilEmpty.string_of_int. unfold Atoi.
    destruct (string_of_uint_first (Pos.to_uint p)
                (DecimalPos.Unsigned.to_uint_nonnil p)) as (c & r & Hs & _).
    rewrite Ascii.eqb_refl. simpl orb. cbv iota. rewrite Hs, <- Hs.
    rewrite digits_of_uint, DecimalPos.Unsigned.of_to. simpl Z.of_N.
    change (- Z.pos p) with (Z.neg p). now rewrite Hn.
Qed.

(** *** [SplitHostPort] *)

Lemma SplitHostPort_no_colon h :
  IndexByte h ":" = None -> SplitHostPort h = None.
Proof.
  intros Hc. unfold SplitHostPort.
  apply LastIndexByte_None in Hc. now rewrite Hc.
Qed.

Lemma SplitHostPort_join h p :
  IndexByte h ":" = None -> IndexByte h "[" = None -> IndexByte h "]" = None ->
  IndexByte p ":" = None -> IndexByte p "[" = None -> IndexByte p "]" = None ->
  SplitHostPort (h +:+ String ":" p) = Some (h, p).
Proof.
  intros Hhc Hho Hhe Hpc Hpo Hpe. unfold SplitHostPort.
  rewrite LastIndexByte_app by assumption.
  assert (Hb : match h +:+ String ":" p with
               | String c _ => Ascii.eqb c "["
               | EmptyString => false
               end = false).
  { destruct h as [|x r]; [reflexivity|]. rewrite app_cons.
    apply IndexByte_cons_None in Hho as [Hx _].
    now destruct (Ascii.eqb_spec x "["). }
  rewrite Hb. unfold slice, sliceFrom.
  rewrite Nat.sub_0_r, substring_prefix, Hhc.
  rewrite Nat.sub_0_r, substring_all.
  assert (Ho : IndexByte (h +:+ String ":" p) "[" = None).
  { apply IndexByte_app_None. split; [assumption|].
    apply IndexByte_cons_None. split; [discriminate|assumption]. }
  assert (He : IndexByte (h +:+ String ":" p) "]" = None).
  { apply IndexByte_app_None. split; [assumption|].
    apply IndexByte_cons_None. split; [discriminate|assumption]. }
  rewrite Ho, He. do 2 f_equal.
  replace (h +:+ String ":" p) with ((h +:+ ":") +:+ p)
    by now rewrite app_assoc.
  replace (String.length h + 1)%nat with (String.length (h +:+ ":"))
    by (rewrite length_app; reflexivity).
  rewrite substring_skip, length_app.
  replace (String.length (h +:+ ":") + String.length p - String.length (h +:+ ":"))%nat
    with (String.length p) by lia.
  apply substring_all.
Qed.

End GoFacts.

(** ** Facts about the parser *)

Lemma fold_parseAt_None exploded indices :
  fold_left (parseAt exploded) indices None = None.
Proof. induction indices as [|i indices IH]; [reflexivity|exact IH]. Qed.

Lemma fold_parseAt_tokens front exploded service :
  fold_left (parseAt (front ++ exploded))
    (seq (length front) (length exploded)) (Some service)
  = parseTokens exploded service.
Proof.
  revert front service. induction exploded as [|tok rest IH]; intros front service.
  - reflexivity.
  - cbn [length seq fold_left parseTokens]. unfold parseAt at 2.
    rewrite (list_lookup_middle front rest tok (length front) eq_refl).
    replace ((front ++ tok :: rest) !! (length front + 1)%nat) with (head rest).
    + destruct (parseStep tok (head rest) service) as [service'|];
        [|apply fold_parseAt_None].
      specialize (IH (front ++ [tok]) service').
      rewrite <- app_assoc, length_app, Nat.add_1_r in IH. exact IH.
    + rewrite lookup_app_r by lia.
      replace (length front + 1 - length front)%nat with 1%nat by lia.
      now destruct rest.
Qed.

(** [parseService] runs the loop on the tokens of its input. *)
Lemma parseService_tokens serviceString :
  parseService serviceString
  = parseTokens (Go.Split serviceString " ") (Service.mk "" 0 "tcp" "wlc" 300 "" []).
Proof. exact (fold_parseAt_tokens [] _ _). Qed.

Lemma parseHostPort_plain h : Go.IndexByte h ":" = None -> parseHostPort h = (h, 0).
Proof. intros Hc. unfold parseHostPort. now rewrite GoFacts.SplitHostPort_no_colon. Qed.

Lemma parseHostPort_join h n :
  plainHost h -> Go.isInt n = true ->
  parseHostPort (h +:+ ":" +:+ Go.FormatInt n) = (h, n).
Proof.
  intros (_ & Hc & Ho & He) Hn. unfold parseHostPort.
  rewrite GoFacts.app_cons, GoFacts.app_nil_l.
  rewrite GoFacts.SplitHostPort_join;
    try assumption; try (apply GoFacts.FormatInt_bytes; split; [reflexivity|discriminate]).
  now rewrite GoFacts.Atoi_FormatInt.
Qed.

Lemma isFlag_false tok :
  isFlag tok = false ->
  isCase tok ["-t"; "--tcp-service"] = false /\
  isCase tok ["-u"; "--udp-service"] = false /\
  isCase tok ["-f"; "--fwmark-service"] = false /\
  isCase tok ["-s"; "--scheduler"] = false /\
  isCase tok ["-p"; "--persistent"] = false /\
  isCase tok ["-M"; "--netmask"] = false.
Proof.
  unfold isFlag, isCase, flags. cbn [existsb]. rewrite !orb_false_iff. tauto.
Qed.

Lemma parseStep_other tok next service :
  isFlag tok = false -> parseStep tok next service = Some service.
Proof.
  intros H. apply isFlag_false in H as (H1 & H2 & H3 & H4 & H5 & H6).
  unfold parseStep. now rewrite H1, H2, H3, H4, H5, H6.
Qed.

Lemma parseStep_flag_end tok service :
  isFlag tok = true -> parseStep tok None service = None.
Proof.
  unfold isFlag, isCase, flags, parseStep. cbn [existsb]. rewrite !orb_true_iff.
  intros H. repeat case_match; try reflexivity.
  unfold isCase in *. cbn [existsb] in *.
  repeat match goal with
         | E : orb _ _ = false |- _ => apply orb_false_iff in E as [? ?]
         end.
  intuition congruence.
Qed.

Lemma parseStep_with_next tok arg service :
  parseStep tok (Some arg) service <> None.
Proof. unfold parseStep. repeat case_match; discriminate. Qed.

(** [parseService] fails exactly on the inputs whose last token is a
    flag. *)
Lemma parseTokens_None exploded service :
  parseTokens exploded service = None <->
  exists front tok, exploded = front ++ [tok] /\ isFlag tok = true.
Proof.
  revert service. induction exploded as [|tok rest IH]; intros service.
  - simpl. split; [discriminate|]. intros (front & t & Hl & _). now destruct front.
  - simpl. destruct rest as [|arg rest'].
    + simpl. destruct (isFlag tok) eqn:Hf.
      * rewrite parseStep_flag_end by assumption. split; [|reflexivity].
        intros _. exists [], tok. auto.
      * rewrite parseStep_other by assumption. split; [discriminate|].
        intros (front & t & Hl & Ht).
        destruct front as [|x front]; simpl in Hl.
        -- injection Hl as <-. congruence.
        -- injection Hl as _ Hl. now destruct front.
    + cbn [head]. pose proof (parseStep_with_next tok arg service) as Hs.
      destruct (parseStep tok (Some arg) service) as [service'|]; [|contradiction].
      rewrite IH. split.
      * intros (front & t & Hl & Ht). exists (tok :: front), t. split; [|assumption].
        simpl. now rewrite Hl.
      * intros (front & t & Hl & Ht).
        destruct front as [|x front]; simpl in Hl; [discriminate|].
        injection Hl as _ Hl. exists front, t. auto.
Qed.

(** A value after [-p] that is not a number gives the persistence 300. *)
Lemma parseStep_persistence_fallback tok arg service :
  isCase tok ["-p"; "--persistent"] = true -> Go.Atoi arg = None ->
  parseStep tok (Some arg) service = Some (Service.withPersistence service 300).
Proof.
  intros Hp Ha. unfold parseStep.
  unfold isCase in *. simpl in Hp. apply orb_true_iff in Hp as [Hp|Hp];
    [|rewrite orb_false_r in Hp]; apply String.eqb_eq in Hp; subst tok;
    cbn; now rewrite Ha.
Qed.

(** C10: [parseHostPort] always returns: the input itself with port 0
    when [SplitHostPort] fails on it or [Atoi] fails on the port part,
    and otherwise the host part with the number of the port part. *)
Theorem C10_parseHostPort_never_fails (hostPort : string) :
  (Go.SplitHostPort hostPort = None \/
   (exists host port,
      Go.SplitHostPort hostPort = Some (host, port) /\ Go.Atoi port = None) ->
   parseHostPort hostPort = (hostPort, 0)) /\
  (forall host port n,
     Go.SplitHostPort hostPort = Some (host, port) -> Go.Atoi port = Some n ->
     parseHostPort hostPort = (host, n)).
Proof.
  unfold parseHostPort. split.
  - intros [->|(host & port & -> & ->)]; reflexivity.
  - intros host port n -> ->. reflexivity.
Qed.

(** C6: at an input that ends with a flag token, [parseService] reads
    past the end of the token list and fails. *)
Theorem C6_parseService_trailing_flag :
  parseService "-t" = None /\
  parseService "-A -t 10.0.0.1:80 -s" = None /\
  parseService "-A -t 10.0.0.1:80 -s wlc -p" = None /\
  parseService "-A -t 10.0.0.1:80 -s wlc -p 300 -M" = None.
Proof. repeat split; vm_compute; reflexivity. Qed.

Lemma parseService_None serviceString :
  parseService serviceString = None <->
  exists front tok, Go.Split serviceString " " = front ++ [tok] /\ isFlag tok = true.
Proof. rewrite parseService_tokens. apply parseTokens_None. Qed.

Lemma isFlag_flags tok : isFlag tok = true <-> In tok flags.
Proof.
  unfold isFlag, isCase. rewrite existsb_exists. split.
  - intros (f & Hin & Heq). apply String.eqb_eq in Heq. now subst.
  - intros Hin. exists tok. split; [assumption|apply String.eqb_refl].
Qed.

(** A flag has neither a colon nor a line feed. *)
Lemma isFlag_byte tok c :
  In c [":"%char; ascii_of_nat 10] -> Go.IndexByte tok c <> None -> isFlag tok = false.
Proof.
  intros Hc Hb. destruct (isFlag tok) eqn:Hf; [|reflexivity].
  apply isFlag_flags in Hf. exfalso. apply Hb. clear Hb.
  simpl in Hc. destruct Hc as [<-|[<-|[]]];
    simpl in Hf; intuition (subst; reflexivity).
Qed.

(** A flag holds a letter. *)
Lemma isFlag_numeric tok :
  (forall c, nonNumeric c -> Go.IndexByte tok c = None) -> isFlag tok = false.
Proof.
  intros Hn. destruct (isFlag tok) eqn:Hf; [|reflexivity].
  apply isFlag_flags in Hf. exfalso.
  assert (He : Go.IndexByte tok "e" = None) by (apply Hn; split; [reflexivity|discriminate]).
  assert (Ht : Go.IndexByte tok "t" = None) by (apply Hn; split; [reflexivity|discriminate]).
  assert (Hu : Go.IndexByte tok "u" = None) by (apply Hn; split; [reflexivity|discriminate]).
  assert (Hf' : Go.IndexByte tok "f" = None) by (apply Hn; split; [reflexivity|discriminate]).
  assert (Hs : Go.IndexByte tok "s" = None) by (apply Hn; split; [reflexivity|discriminate]).
  assert (Hp : Go.IndexByte tok "p" = None) by (apply Hn; split; [reflexivity|discriminate]).
  assert (HM : Go.IndexByte tok "M" = None) by (apply Hn; split; [reflexivity|discriminate]).
  simpl in Hf. intuition (subst; discriminate).
Qed.

Lemma isFlag_FormatInt n : isFlag (Go.FormatInt n) = false.
Proof. apply isFlag_numeric. intros c Hc. now apply GoFacts.FormatInt_bytes. Qed.

Lemma parseTokens_harmless tf hp exploded service :
  harmless tf hp exploded ->
  parseStep tf (Some hp) service = Some service ->
  parseTokens exploded service = Some service.
Proof.
  intros Hh Hfix. induction Hh as [|tok rest Hf _ IH|rest _ IH]; simpl.
  - reflexivity.
  - now rewrite parseStep_other.
  - now rewrite Hfix.
Qed.

Lemma harmless_app tf hp front rest :
  Forall (fun tok => isFlag tok = false) front -> harmless tf hp rest ->
  harmless tf hp (front ++ rest).
Proof.
  intros Hf Hr. induction Hf as [|tok front Ht _ IH]; simpl; [assumption|].
  now apply harmless_other.
Qed.

(** ** The text of a service and what the parser reads in it *)

Lemma Split_word a b :
  Go.IndexByte a " " = None ->
  Go.Split (a +:+ " " +:+ b) " " = a :: Go.Split b " ".
Proof. intros Ha. now apply (GoFacts.Split_token a b " "). Qed.

Lemma Split_newline b :
  Go.Split (newline +:+ b) " "
  = (newline +:+ hd "" (Go.Split b " ")) :: tl (Go.Split b " ").
Proof. now apply (GoFacts.Split_cons_other (ascii_of_nat 10) b " "). Qed.

Lemma IndexByte_newline_found a b :
  Go.IndexByte (a +:+ newline +:+ b) (ascii_of_nat 10) <> None.
Proof.
  intros Hn. apply GoFacts.IndexByte_app_None in Hn as [_ Hn].
  change (newline +:+ b) with (String (ascii_of_nat 10) b) in Hn.
  apply GoFacts.IndexByte_cons_None in Hn as [Hn _]. now apply Hn.
Qed.

Section Text.

Context `{Collaborators}.

Lemma concat_serverText s servers :
  String.concat "" (map (serverLine s) servers) = serverText s servers.
Proof.
  induction servers as [|x rest IH]; [reflexivity|].
  simpl. rewrite <- IH. destruct (map (serverLine s) rest) eqn:E.
  - simpl. now rewrite GoFacts.app_nil_r.
  - reflexivity.
Qed.

Lemma Service_String_text s :
  Service_String s
  = serviceLine s +:+ newline +:+ serverText s (Service.Servers s).
Proof.
  unfold Service_String. cbv zeta.
  change (map _ (Service.Servers s)) with (map (serverLine s) (Service.Servers s)).
  rewrite <- concat_serverText.
  generalize (map (serverLine s) (Service.Servers s)). intros l.
  change (Go.Join ([?h] ++ l) "") with (String.concat "" (h :: l)).
  unfold serviceLine. rewrite !GoFacts.app_assoc.
  destruct l as [|x l]; simpl String.concat.
  - now rewrite GoFacts.app_nil_r.
  - now rewrite !GoFacts.app_assoc.
Qed.

Lemma serverLine_words s server rest :
  serverLine s server +:+ rest
  = "-a" +:+ " " +:+ mapIndex ServiceTypeFlag (Service.Type_ s)
    +:+ " " +:+ address s +:+ " " +:+ "-r" +:+ " "
    +:+ Server_String server +:+ newline +:+ rest.
Proof. unfold serverLine, address. rewrite !GoFacts.app_assoc. reflexivity. Qed.

Lemma address_no_space s :
  Go.IndexByte (Service.Host s) " " = None -> Go.IndexByte (address s) " " = None.
Proof.
  intros Hh. unfold address. apply GoFacts.IndexByte_app_None. split; [assumption|].
  apply GoFacts.IndexByte_app_None. split; [reflexivity|].
  apply GoFacts.FormatInt_bytes. split; [reflexivity|discriminate].
Qed.

Lemma address_not_flag s : isFlag (address s) = false.
Proof.
  apply isFlag_byte with ":"%char; [now left|]. unfold address.
  intros Hn. apply GoFacts.IndexByte_app_None in Hn as [_ Hn].
  apply GoFacts.IndexByte_app_None in Hn as [Hn _]. discriminate Hn.
Qed.

Lemma Split_serverLine s server rest :
  Go.IndexByte (Service.Host s) " " = None ->
  Go.IndexByte (mapIndex ServiceTypeFlag (Service.Type_ s)) " " = None ->
  Go.Split (serverLine s server +:+ rest) " "
  = "-a" :: mapIndex ServiceTypeFlag (Service.Type_ s) :: address s :: "-r"
    :: removelast (Go.Split (Server_String server) " ")
    ++ (List.last (Go.Split (Server_String server) " ") ""
        +:+ newline +:+ hd "" (Go.Split rest " "))
       :: tl (Go.Split rest " ").
Proof.
  intros Hh Ht. rewrite serverLine_words.
  rewrite !Split_word; try reflexivity; try assumption;
    try now apply address_no_space.
  now rewrite GoFacts.Split_app, Split_newline.
Qed.

Lemma serverText_hd s servers :
  Go.IndexByte (Service.Host s) " " = None ->
  Go.IndexByte (mapIndex ServiceTypeFlag (Service.Type_ s)) " " = None ->
  hd "" (Go.Split (serverText s servers) " ")
  = match servers with [] => "" | _ :: _ => "-a" end.
Proof.
  intros Hh Ht. destruct servers as [|x rest]; [reflexivity|].
  simpl serverText. now rewrite Split_serverLine.
Qed.

Lemma serverText_harmless s servers :
  Go.IndexByte (Service.Host s) " " = None ->
  Go.IndexByte (mapIndex ServiceTypeFlag (Service.Type_ s)) " " = None ->
  Forall quietServer servers ->
  harmless (mapIndex ServiceTypeFlag (Service.Type_ s)) (address s)
    (tl (Go.Split (serverText s servers) " ")).
Proof.
  intros Hh Ht Hq. induction Hq as [|x rest Hx _ IH]; [constructor|].
  simpl serverText. rewrite Split_serverLine by assumption. simpl tl.
  apply harmless_type. apply harmless_other; [apply address_not_flag|].
  apply harmless_other; [reflexivity|].
  apply harmless_app.
  - unfold quietServer in Hx. revert Hx.
    generalize (Go.Split (Server_String x) " "). intros l Hl.
    induction Hl as [|a l Ha Hl IHl]; [constructor|].
    destruct l; [constructor|]. constructor; assumption.
  - apply harmless_other; [|assumption].
    apply isFlag_byte with (ascii_of_nat 10); [right; now left|].
    apply IndexByte_newline_found.
Qed.

Lemma typeFlag_read ty :
  In ty knownTypes ->
  Go.IndexByte (mapIndex ServiceTypeFlag ty) " " = None /\
  forall arg service,
    parseStep (mapIndex ServiceTypeFlag ty) (Some arg) service
    = Some (Service.withHostPort (Service.withType service (readType ty))
              (parseHostPort arg)).
Proof.
  simpl. intros Hty.
  repeat (destruct Hty as [<-|Hty]; [split; [reflexivity|intros; reflexivity]|]).
  destruct Hty.
Qed.

Lemma schedulerFlag_read sched :
  In sched knownSchedulers ->
  Go.IndexByte (mapIndex ServiceSchedulerFlag sched) " " = None /\
  isFlag (mapIndex ServiceSchedulerFlag sched) = false /\
  mapIndex ServiceSchedulerFlag sched = readScheduler sched.
Proof.
  simpl. intros Hs.
  repeat (destruct Hs as [<-|Hs]; [repeat split; reflexivity|]).
  destruct Hs.
Qed.

Lemma parseTokens_skip tok rest service :
  isFlag tok = false -> parseTokens (tok :: rest) service = parseTokens rest service.
Proof. intros Hf. simpl. now rewrite parseStep_other. Qed.

Lemma parseTokens_step tok arg rest service service' :
  parseStep tok (Some arg) service = Some service' ->
  parseTokens (tok :: arg :: rest) service = parseTokens (arg :: rest) service'.
Proof. intros Hs. simpl. simpl in Hs. now rewrite Hs. Qed.

Lemma serviceLine_words s rest :
  serviceLine s +:+ rest
  = "-A" +:+ " " +:+ mapIndex ServiceTypeFlag (Service.Type_ s)
    +:+ " " +:+ getHostPort s +:+ " " +:+ "-s" +:+ " "
    +:+ mapIndex ServiceSchedulerFlag (Service.Scheduler s) +:+ " "
    +:+ Go.Join (getPersistence s) " " +:+ " "
    +:+ Go.Join (getNetmask s) " " +:+ rest.
Proof. unfold serviceLine. rewrite !GoFacts.app_assoc. reflexivity. Qed.

Lemma getHostPort_read s :
  plainHost (Service.Host s) -> Go.isInt (Service.Port s) = true ->
  (Service.Port s = 0 -> isFlag (Service.Host s) = false) ->
  Go.IndexByte (getHostPort s) " " = None /\
  isFlag (getHostPort s) = false /\
  parseHostPort (getHostPort s) = (Service.Host s, Service.Port s).
Proof.
  intros Hh Hp Hf. unfold getHostPort.
  destruct (Z.eqb_spec (Service.Port s) 0) as [H0|Hne].
  - rewrite H0. destruct Hh as (Hsp & Hc & _).
    repeat split; [assumption|auto|now apply parseHostPort_plain].
  - fold (address s). split; [apply address_no_space, Hh|].
    split; [apply address_not_flag|now apply parseHostPort_join].
Qed.

(** The text of the options [-p] and [-M], in front of the line feed
    and the lines of the servers, and what the parser makes of it. *)
Lemma parse_options s tf service :
  Go.isInt (Service.Persistence s) = true ->
  Go.IndexByte (Service.Netmask s) " " = None ->
  Go.IndexByte (Service.Host s) " " = None ->
  Go.IndexByte (mapIndex ServiceTypeFlag (Service.Type_ s)) " " = None ->
  harmless tf (address s) (tl (Go.Split (serverText s (Service.Servers s)) " ")) ->
  (forall sv,
     Service.Host sv = Service.Host service ->
     Service.Port sv = Service.Port service ->
     Service.Type_ sv = Service.Type_ service ->
     parseStep tf (Some (address s)) sv = Some sv) ->
  Service.Persistence service = 300 -> Service.Netmask service = "" ->
  parseTokens
    (Go.Split (Go.Join (getPersistence s) " " +:+ " "
               +:+ Go.Join (getNetmask s) " " +:+ newline
               +:+ serverText s (Service.Servers s)) " ")
    service
  = Some (Service.withNetmask
            (Service.withPersistence service (readPersistence (Service.Persistence s)))
            (readNetmask s)).
Proof.
  intros Hp Hn Hh Ht Htail Hfix Hp0 Hn0.
  unfold getPersistence, getNetmask, readPersistence, readNetmask.
  pose proof (serverText_hd s (Service.Servers s) Hh Ht) as Hhd.
  assert (Hglue : forall a b, isFlag (a +:+ newline +:+ b) = false).
  { intros a b. apply isFlag_byte with (ascii_of_nat 10); [right; now left|].
    apply IndexByte_newline_found. }
  assert (Hnum : forall n, Go.IndexByte (Go.FormatInt n) " " = None).
  { intros n. apply GoFacts.FormatInt_bytes. split; [reflexivity|discriminate]. }
  destruct (Service.Persistence s =? 0) eqn:Ep; cbn [negb];
    destruct (String.eqb_spec (Service.Netmask s) "") as [En|En]; cbn [negb];
    repeat change (Go.Join [] " ") with "";
    repeat change (Go.Join ["-M"; ?m] " ") with ("-M" +:+ " " +:+ m);
    repeat change (Go.Join ["-p"; ?f] " ") with ("-p" +:+ " " +:+ f);
    rewrite ?GoFacts.app_assoc.
  - rewrite Split_word, GoFacts.app_nil_l, Split_newline by reflexivity.
    rewrite parseTokens_skip by reflexivity.
    rewrite parseTokens_skip by apply (Hglue "").
    rewrite (parseTokens_harmless _ _ _ _ Htail) by now apply Hfix.
    destruct service; simpl in *; now subst.
  - rewrite !Split_word by reflexivity.
    rewrite GoFacts.Split_app_piece, Split_newline by assumption.
    cbn [hd tl]. rewrite Hhd.
    rewrite parseTokens_skip by reflexivity.
    erewrite parseTokens_step by reflexivity.
    rewrite parseTokens_skip by apply Hglue.
    rewrite (parseTokens_harmless _ _ _ _ Htail) by now apply Hfix.
    destruct service; simpl in *; now subst.
  - rewrite Split_word by reflexivity.
    rewrite Split_word by apply Hnum.
    rewrite GoFacts.app_nil_l, Split_newline.
    erewrite parseTokens_step by reflexivity.
    rewrite GoFacts.Atoi_FormatInt by assumption.
    rewrite parseTokens_skip by apply isFlag_FormatInt.
    rewrite parseTokens_skip by apply (Hglue "").
    rewrite (parseTokens_harmless _ _ _ _ Htail) by now apply Hfix.
    destruct service; simpl in *; now subst.
  - rewrite Split_word by reflexivity.
    rewrite Split_word by apply Hnum.
    rewrite Split_word by reflexivity.
    rewrite GoFacts.Split_app_piece, Split_newline by assumption.
    cbn [hd tl]. rewrite Hhd.
    erewrite parseTokens_step by reflexivity.
    rewrite GoFacts.Atoi_FormatInt by assumption.
    rewrite parseTokens_skip by apply isFlag_FormatInt.
    erewrite parseTokens_step by reflexivity.
    rewrite parseTokens_skip by apply Hglue.
    rewrite (parseTokens_harmless _ _ _ _ Htail) by now apply Hfix.
    destruct service; simpl in *; now subst.
Qed.

(** What [parseService] returns on the text of a service with a known
    type and scheduler. *)
Theorem parseService_String s :
  In (Service.Type_ s) knownTypes ->
  In (Service.Scheduler s) knownSchedulers ->
  readable s ->
  parseService (Service_String s)
  = Some (Service.mk (Service.Host s) (Service.Port s)
            (readType (Service.Type_ s)) (readScheduler (Service.Scheduler s))
            (readPersistence (Service.Persistence s)) (readNetmask s) []).
Proof.
  intros Hty Hsc (Hh & Hf & Hp & Hpers & Hn & Hq).
  destruct (typeFlag_read _ Hty) as [Htsp Htf].
  destruct (schedulerFlag_read _ Hsc) as (Hssp & Hsf & Hsr).
  destruct (getHostPort_read s Hh Hp Hf) as (Hhsp & Hhf & Hhp).
  assert (Hhost : Go.IndexByte (Service.Host s) " " = None) by apply Hh.
  pose proof (serverText_harmless s _ Hhost Htsp Hq) as Htail.
  rewrite parseService_tokens, Service_String_text.
  rewrite serviceLine_words.
  rewrite Split_word by reflexivity.
  rewrite Split_word by assumption.
  rewrite Split_word by assumption.
  rewrite Split_word by reflexivity.
  rewrite Split_word by assumption.
  rewrite parseTokens_skip by reflexivity.
  erewrite parseTokens_step by apply Htf.
  rewrite parseTokens_skip by assumption.
  erewrite parseTokens_step by reflexivity.
  rewrite parseTokens_skip by assumption.
  rewrite Hhp, Hsr.
  rewrite (parse_options s _ _ Hpers Hn Hhost Htsp Htail); try reflexivity.
  intros sv Hsh Hsp Hst. rewrite Htf. unfold address.
  rewrite parseHostPort_join by assumption.
  destruct sv; simpl in *. now subst.
Qed.

Lemma Validate_known s :
  Service_Validate s = None ->
  In (Service.Type_ s) knownTypes /\ In (Service.Scheduler s) knownSchedulers.
Proof.
  unfold Service_Validate. intros Hv.
  destruct (mapHas ServiceTypeFlag _) eqn:Et; [|discriminate].
  destruct (mapHas ServiceSchedulerFlag _) eqn:Es; [|discriminate].
  split; [now apply mapHas_ServiceTypeFlag|now apply mapHas_ServiceSchedulerFlag].
Qed.

Lemma readNetmask_same s : readNetmask s = Service.Netmask s <-> Service.Netmask s = "".
Proof.
  unfold readNetmask.
  destruct (String.eqb_spec (Service.Netmask s) "") as [->|Hne]; [tauto|].
  split; [|contradiction]. intros Heq. apply (f_equal String.length) in Heq.
  rewrite !GoFacts.length_app in Heq. simpl in Heq. lia.
Qed.

(** C1 (amended): for a service that passes [Validate], whose
    persistence is not 0, whose netmask is empty and whose text is
    readable, parsing the text returns a record that equals the service
    on the host, the port, the persistence and the netmask, and whose
    type and scheduler are those of the service with the empty defaults
    read as "tcp" and "wlc"; so it equals the service on the six fields
    exactly when the type and the scheduler are not empty. *)
Theorem C1_round_trip (s : Service.t) :
  Service_Validate s = None -> readable s ->
  Service.Persistence s <> 0 -> Service.Netmask s = "" ->
  exists s',
    parseService (Service_String s) = Some s' /\
    Service.Host s' = Service.Host s /\
    Service.Port s' = Service.Port s /\
    Service.Persistence s' = Service.Persistence s /\
    Service.Netmask s' = Service.Netmask s /\
    Service.Type_ s' = readType (Service.Type_ s) /\
    Service.Scheduler s' = readScheduler (Service.Scheduler s) /\
    (sameFields s' s <-> Service.Type_ s <> "" /\ Service.Scheduler s <> "").
Proof.
  intros Hv Hr Hp Hn. destruct (Validate_known s Hv) as [Hty Hsc].
  eexists. split; [now apply parseService_String|].
  unfold sameFields.
  cbn [Service.Host Service.Port Service.Type_ Service.Scheduler
       Service.Persistence Service.Netmask].
  assert (Hrp : readPersistence (Service.Persistence s) = Service.Persistence s).
  { unfold readPersistence. now destruct (Z.eqb_spec (Service.Persistence s) 0). }
  assert (Hrn : readNetmask s = Service.Netmask s) by now apply readNetmask_same.
  rewrite Hrp, Hrn.
  repeat (split; [reflexivity|]).
  unfold readType, readScheduler.
  destruct (String.eqb_spec (Service.Type_ s) "") as [Et|Et];
    destruct (String.eqb_spec (Service.Scheduler s) "") as [Es|Es];
    try rewrite Et; try rewrite Es;
    intuition (try discriminate; try congruence).
Qed.

End Text.

(** ** Examples and counterexamples *)

(** C1, as first stated, fails at three services that pass [Validate]:
    the empty type is read back as "tcp", the persistence 0 as 300, and
    a netmask together with the line feed that follows it. *)
Lemma C1_counterexample :
  let read (s : Service.t) := parseService (@Service_String obligingTool s) in
  let s1 := Service.mk "10.0.0.1" 80 "" "wlc" 60 "" [] in
  let s2 := Service.mk "10.0.0.1" 80 "tcp" "wlc" 0 "" [] in
  let s3 := Service.mk "10.0.0.1" 80 "tcp" "wlc" 60 "255.255.255.0" [] in
  (@Service_Validate obligingTool s1 = None /\
   read s1 = Some (Service.mk "10.0.0.1" 80 "tcp" "wlc" 60 "" [])) /\
  (@Service_Validate obligingTool s2 = None /\
   read s2 = Some (Service.mk "10.0.0.1" 80 "tcp" "wlc" 300 "" [])) /\
  (@Service_Validate obligingTool s3 = None /\
   read s3
   = Some (Service.mk "10.0.0.1" 80 "tcp" "wlc" 60 ("255.255.255.0" +:+ newline) [])).
Proof. vm_compute. repeat split; reflexivity. Qed.

Lemma C1_witness :
  @Service_Validate obligingTool exampleService = None /\
  @readable obligingTool exampleService /\
  Service.Persistence exampleService <> 0 /\
  Service.Netmask exampleService = "" /\
  exists s',
    parseService (@Service_String obligingTool exampleService) = Some s' /\
    Service.Host s' = "10.0.0.1" /\ Service.Port s' = 80 /\
    Service.Persistence s' = 60 /\ Service.Netmask s' = "" /\
    Service.Type_ s' = "tcp" /\ Service.Scheduler s' = "wlc" /\
    (sameFields s' exampleService <->
     Service.Type_ exampleService <> "" /\ Service.Scheduler exampleService <> "").
Proof.
  assert (Hv : @Service_Validate obligingTool exampleService = None)
    by (vm_compute; reflexivity).
  assert (Hr : @readable obligingTool exampleService).
  { unfold readable, plainHost.
    repeat split; try (vm_compute; reflexivity); try discriminate.
    repeat constructor. }
  assert (Hp : Service.Persistence exampleService <> 0) by discriminate.
  split; [exact Hv|]. split; [exact Hr|]. split; [exact Hp|]. split; [reflexivity|].
  exact (@C1_round_trip obligingTool exampleService Hv Hr Hp eq_refl).
Defined.

Lemma C2_witness :
  let weighted := Server.mk "10.0.0.2" 80 "g" 5 in
  (@Server_Validate obligingTool exampleServer = None /\
   portRuleBroken (Service.Port emptyService) exampleServer = false /\
   FindServer emptyService "10.0.0.2" 80 = None /\
   @AddServer obligingTool emptyService exampleServer []
   = (None, Service.withServers emptyService [exampleServer],
      [@addServerCall obligingTool emptyService exampleServer])) /\
  (@Server_Validate flakyTool weighted = None /\
   portRuleBroken (Service.Port exampleService) weighted = false /\
   @EditServer flakyTool exampleService weighted []
   = (Some (OtherError "exit status 1"), exampleService,
      [@editServerCall flakyTool exampleService weighted])) /\
  (@Server_Validate obligingTool weighted = None /\
   portRuleBroken (Service.Port exampleService) weighted = false /\
   @EditServer obligingTool exampleService weighted []
   = (None, Service.withServers exampleService [weighted; exampleGateway],
      [@editServerCall obligingTool exampleService weighted])) /\
  @RemoveServer obligingTool exampleService "10.0.0.2" 80 []
  = (None, Service.withServers exampleService [exampleGateway],
     [removeServerCall exampleService "10.0.0.2" 80]).
Proof.
  intros weighted.
  split; [|split; [|split]].
  - split; [reflexivity|]. split; [reflexivity|]. split; [reflexivity|].
    exact (proj1 (@C2_state_updated_only_on_success obligingTool emptyService
                    exampleServer "" 0 []) eq_refl eq_refl eq_refl).
  - split; [reflexivity|]. split; [reflexivity|].
    exact (proj1 (proj2 (@C2_state_updated_only_on_success flakyTool exampleService
                           weighted "" 0 [])) eq_refl eq_refl).
  - split; [reflexivity|]. split; [reflexivity|].
    exact (proj1 (proj2 (@C2_state_updated_only_on_success obligingTool exampleService
                           weighted "" 0 [])) eq_refl eq_refl).
  - exact (proj1 (proj2 (proj2 (@C2_state_updated_only_on_success obligingTool
                                  exampleService exampleServer "10.0.0.2" 80 [])))).
Defined.

(** C7, as first stated, fails: [AddServer] and [EditServer] return
    [InvalidServerPort], which is no error of the tool, for a server
    that breaks the port rule, and [AddServer] returns nil for an
    address that is already there, each time without an invocation. *)
Lemma C7_counterexample :
  let r := Server.mk "10.0.0.2" 8080 "g" 1 in
  @AddServer obligingTool emptyService r [] = (Some InvalidServerPort, emptyService, []) /\
  @EditServer obligingTool emptyService r [] = (Some InvalidServerPort, emptyService, []) /\
  @AddServer obligingTool exampleService exampleServer [] = (None, exampleService, []).
Proof. vm_compute. repeat split; reflexivity. Qed.

(** C3, as first stated, fails: a service of an unknown type holds a
    server that breaks the port rule, and [Validate] returns
    [InvalidServiceType], whatever the validation of a server is. *)
Lemma C3_counterexample :
  let r := Server.mk "10.0.0.2" 8080 "g" 1 in
  let s := Service.mk "10.0.0.1" 80 "bogus" "wlc" 0 "" [r] in
  Server.Forwarder r <> "m" /\ Server.Port r <> Service.Port s /\
  In r (Service.Servers s) /\
  @Service_Validate obligingTool s = Some InvalidServiceType /\
  @Service_Validate obligingTool s <> Some InvalidServerPort.
Proof.
  intros r s.
  split; [discriminate|]. split; [discriminate|]. split; [now left|].
  split; [vm_compute; reflexivity|vm_compute; discriminate].
Qed.

Lemma C3_witness :
  let r := Server.mk "10.0.0.2" 8080 "g" 1 in
  let s := Service.mk "10.0.0.1" 80 "tcp" "wlc" 0 "" [exampleServer] in
  Server.Forwarder r <> "m" /\ Server.Port r <> Service.Port s /\
  @Server_Validate obligingTool r = None /\
  @AddServer obligingTool s r [] = (Some InvalidServerPort, s, []) /\
  @EditServer obligingTool s r [] = (Some InvalidServerPort, s, []).
Proof.
  intros r s.
  assert (Hf : Server.Forwarder r <> "m") by discriminate.
  assert (Hp : Server.Port r <> Service.Port s) by discriminate.
  split; [exact Hf|]. split; [exact Hp|]. split; [reflexivity|].
  exact (proj2 (proj2 (proj1 (@C3_port_rule obligingTool s r []) Hf Hp))).
Defined.

Lemma C4_witness :
  let s := Service.mk "10.0.0.1" 80 "sctp" "wlc" 0 "" [] in
  ~ In (Service.Type_ s) knownTypes /\
  @Service_Validate obligingTool s = Some InvalidServiceType.
Proof.
  intros s.
  assert (Hty : ~ In (Service.Type_ s) knownTypes).
  { simpl. intuition discriminate. }
  split; [exact Hty|].
  exact (proj1 (@C4_Validate_decision obligingTool s) Hty).
Defined.

(** C8, as first stated, fails.  A server that passes its own
    validation but breaks the port rule gets [InvalidServerPort] even
    when a server with its host and port is there; and when the tool
    fails at the first call and succeeds at the second, calling
    [AddServer] twice appends the server and calling it once does not. *)
Lemma C8_counterexample :
  let r := Server.mk "10.0.0.3" 8080 "g" 1 in
  let s := Service.mk "10.0.0.1" 80 "tcp" "wlc" 0 "" [exampleGateway] in
  let s0 := Service.mk "10.0.0.1" 80 "tcp" "wlc" 0 "" [] in
  let once := @AddServer flakyTool s0 exampleServer [] in
  let twice := @AddServer flakyTool (snd (fst once)) exampleServer (snd once) in
  (@Server_Validate obligingTool r = None /\
   FindServer s (Server.Host r) (Server.Port r) = Some exampleGateway /\
   @AddServer obligingTool s r [] = (Some InvalidServerPort, s, [])) /\
  (@Server_Validate flakyTool exampleServer = None /\
   portRuleBroken (Service.Port s0) exampleServer = false /\
   Service.Servers (snd (fst once)) = [] /\
   Service.Servers (snd (fst twice)) = [exampleServer]).
Proof. vm_compute. repeat split; reflexivity. Qed.

Lemma C8_witness :
  @Server_Validate obligingTool exampleServer = None /\
  portRuleBroken (Service.Port exampleService) exampleServer = false /\
  @FindServer exampleService (Server.Host exampleServer) (Server.Port exampleServer)
  <> None /\
  @AddServer obligingTool exampleService exampleServer []
  = (None, exampleService, []).
Proof.
  split; [reflexivity|]. split; [reflexivity|]. split; [discriminate|].
  apply (proj1 (@C8_AddServer_idempotent obligingTool exampleService exampleServer []));
    [reflexivity|reflexivity|discriminate].
Defined.

Lemma C9_witness :
  let s' := Service.withServers exampleService [exampleGateway] in
  let w' := [removeServerCall exampleService "10.0.0.2" 80] in
  @RemoveServer obligingTool exampleService "10.0.0.2" 80 [] = (None, s', w') /\
  firstChanged exampleService s' "10.0.0.2" 80 (fun _ => []).
Proof.
  intros s' w'.
  assert (Hrun : @RemoveServer obligingTool exampleService "10.0.0.2" 80 []
                 = (None, s', w')) by reflexivity.
  split; [exact Hrun|].
  exact (proj1 (proj2 (@C9_frame_of_Edit_and_Remove obligingTool exampleService
                         exampleServer "10.0.0.2" 80 [])) s' w' Hrun).
Defined.

Lemma C10_witness :
  Go.SplitHostPort "10.0.0.1:80" = Some ("10.0.0.1", "80") /\
  Go.Atoi "80" = Some 80 /\
  parseHostPort "10.0.0.1:80" = ("10.0.0.1", 80).
Proof.
  split; [reflexivity|]. split; [reflexivity|].
  exact (proj2 (C10_parseHostPort_never_fails "10.0.0.1:80")
           "10.0.0.1" "80" 80 eq_refl eq_refl).
Defined.

(** The arguments of [Add] for a service. *)
Example Add_exampleService :
  @Add obligingTool exampleService []
  = (None, [("ipvsadm", ["-A"; "-t"; "10.0.0.1:80"; "-s"; "wlc"; "-p"; "60"])]).
Proof. vm_compute. reflexivity. Qed.

(** The parser on two lines in the format of ipvsadm. *)
Example parseService_line :
  parseService "-A -u 10.0.0.1:53 -s rr -p 120 -M 255.255.255.0"
  = Some (Service.mk "10.0.0.1" 53 "udp" "rr" 120 "255.255.255.0" []).
Proof. vm_compute. reflexivity. Qed.

Example parseService_persistence_not_a_number :
  parseService "-A -t 10.0.0.1:80 -s wlc -p soon"
  = Some (Service.mk "10.0.0.1" 80 "tcp" "wlc" 300 "" []).
Proof. vm_compute. reflexivity. Qed.

(** ** Further properties of the operations on the servers *)

Lemma sameAddress_addressOf x host port :
  sameAddress x host port = true <-> addressOf x = (host, port).
Proof.
  unfold sameAddress, addressOf. rewrite andb_true_iff, String.eqb_eq, Z.eqb_eq.
  split; [intros [-> ->]; reflexivity|intros [= -> ->]; auto].
Qed.

Lemma no_match_addressOf servers host port :
  Forall (fun x => sameAddress x host port = false) servers <->
  ~ In (host, port) (map addressOf servers).
Proof.
  induction servers as [|x rest IH]; simpl.
  - split; [tauto|constructor].
  - split.
    + intros Hall. inversion Hall as [|? ? Hx Hrest]; subst.
      intros [Heq|Hin]; [|now apply IH in Hrest].
      apply sameAddress_addressOf in Heq. congruence.
    + intros Hnot. constructor; [|apply IH; tauto].
      destruct (sameAddress x host port) eqn:E; [|reflexivity].
      apply sameAddress_addressOf in E. tauto.
Qed.

Lemma findServer_None servers host port :
  findServer servers host port = None <->
  Forall (fun x => sameAddress x host port = false) servers.
Proof.
  induction servers as [|x rest IH]; simpl; [split; auto|].
  destruct (sameAddress x host port) eqn:E.
  - split; [discriminate|]. intros Hall. inversion Hall; congruence.
  - rewrite IH. split; [now constructor|]. intros Hall. now inversion Hall.
Qed.

Lemma findServer_Some servers host port r :
  findServer servers host port = Some r <->
  exists pre post,
    servers = pre ++ r :: post /\
    Forall (fun x => sameAddress x host port = false) pre /\
    sameAddress r host port = true.
Proof.
  induction servers as [|x rest IH]; simpl.
  - split; [discriminate|]. intros (pre & post & Hl & _). now destruct pre.
  - destruct (sameAddress x host port) eqn:E.
    + split.
      * intros [= ->]. exists [], rest. auto.
      * intros (pre & post & Hl & Hpre & Hr).
        destruct pre as [|y pre]; simpl in Hl; injection Hl as -> ->; [reflexivity|].
        inversion Hpre; congruence.
    + rewrite IH. split.
      * intros (pre & post & -> & Hpre & Hr). exists (x :: pre), post. auto.
      * intros (pre & post & Hl & Hpre & Hr).
        destruct pre as [|y pre]; simpl in Hl; injection Hl as -> ->; [congruence|].
        exists pre, post. inversion Hpre; auto.
Qed.

Lemma map_addressOf_replaceFirst servers r :
  map addressOf (replaceFirst servers (Server.Host r) (Server.Port r) r)
  = map addressOf servers.
Proof.
  induction servers as [|x rest IH]; simpl; [reflexivity|].
  destruct (sameAddress x _ _) eqn:E; simpl.
  - apply sameAddress_addressOf in E. now rewrite E.
  - now rewrite IH.
Qed.

Lemma removeFirst_In servers host port a :
  In a (map addressOf (removeFirst servers host port)) ->
  In a (map addressOf servers).
Proof.
  induction servers as [|x rest IH]; simpl; [tauto|].
  destruct (sameAddress x host port); simpl; [tauto|]. intros [?|?]; auto.
Qed.

Lemma removeFirst_unique servers host port :
  uniqueAddresses servers ->
  uniqueAddresses (removeFirst servers host port) /\
  ~ In (host, port) (map addressOf (removeFirst servers host port)).
Proof.
  unfold uniqueAddresses.
  induction servers as [|x rest IH]; simpl; intros Hu.
  - split; [constructor|tauto].
  - apply List.NoDup_cons_iff in Hu as [Hx Hrest].
    destruct (sameAddress x host port) eqn:E.
    + split; [assumption|]. apply sameAddress_addressOf in E. congruence.
    + destruct (IH Hrest) as [IH1 IH2]. simpl. split.
      * apply List.NoDup_cons_iff. split; [|assumption].
        intros Hin. apply Hx. now apply removeFirst_In in Hin.
      * intros [Heq|Hin]; [|tauto].
        apply sameAddress_addressOf in Heq. congruence.
Qed.

Lemma removeFirst_app_last servers r :
  Forall (fun x => sameAddress x (Server.Host r) (Server.Port r) = false) servers ->
  removeFirst (servers ++ [r]) (Server.Host r) (Server.Port r) = servers.
Proof.
  intros Hall. induction Hall as [|x rest Hx _ IH]; simpl.
  - now rewrite sameAddress_refl.
  - now rewrite Hx, IH.
Qed.

Lemma replaceFirst_again servers r :
  replaceFirst (replaceFirst servers (Server.Host r) (Server.Port r) r)
    (Server.Host r) (Server.Port r) r
  = replaceFirst servers (Server.Host r) (Server.Port r) r.
Proof.
  induction servers as [|x rest IH]; simpl; [reflexivity|].
  destruct (sameAddress x _ _) eqn:E; simpl.
  - now rewrite sameAddress_refl.
  - now rewrite E, IH.
Qed.

Lemma findServer_replaceFirst servers r :
  findServer (replaceFirst servers (Server.Host r) (Server.Port r) r)
    (Server.Host r) (Server.Port r)
  = match findServer servers (Server.Host r) (Server.Port r) with
    | Some _ => Some r
    | None => None
    end.
Proof.
  induction servers as [|x rest IH]; simpl; [reflexivity|].
  destruct (sameAddress x _ _) eqn:E; simpl.
  - now rewrite sameAddress_refl.
  - now rewrite E, IH.
Qed.

Section MoreOperations.

Context `{Collaborators}.

(** X1: [FindServer] returns the first server of the list with the
    host and port, and nil exactly when no server has them. *)
Theorem X1_FindServer_first (s : Service.t) (host : string) (port : Z) :
  (forall r,
     FindServer s host port = Some r <->
     exists pre post,
       Service.Servers s = pre ++ r :: post /\
       Forall (fun x => sameAddress x host port = false) pre /\
       sameAddress r host port = true) /\
  (FindServer s host port = None <->
   Forall (fun x => sameAddress x host port = false) (Service.Servers s)).
Proof.
  unfold FindServer. split; [intros r; apply findServer_Some|apply findServer_None].
Qed.

(** X2: whatever their outcome, [AddServer], [EditServer] and
    [RemoveServer] change no field but the servers, and when they
    return an error, of the validation or of the tool, they leave the
    servers as they were too. *)
Theorem X2_errors_leave_record (s : Service.t) (server : Server.t)
    (host : string) (port : Z) (w : World) :
  let changesOnlyServers (run : option error * Service.t * World) :=
    snd (fst run) = Service.withServers s (Service.Servers (snd (fst run))) /\
    (fst (fst run) <> None -> snd (fst run) = s) in
  changesOnlyServers (AddServer s server w) /\
  changesOnlyServers (EditServer s server w) /\
  changesOnlyServers (RemoveServer s host port w).
Proof.
  cbv zeta. rewrite AddServer_run, EditServer_run, RemoveServer_run.
  repeat split; repeat case_match; simpl; intros; try congruence;
    try (now rewrite withServers_same).
Qed.

(** X3: a service without two servers at one address stays so through
    [AddServer], [EditServer] and [RemoveServer], whatever their
    outcome; [EditServer] never changes the addresses of the servers
    nor their number. *)
Theorem X3_unique_addresses_kept (s : Service.t) (server : Server.t)
    (host : string) (port : Z) (w : World) :
  uniqueAddresses (Service.Servers s) ->
  uniqueAddresses (Service.Servers (snd (fst (AddServer s server w)))) /\
  uniqueAddresses (Service.Servers (snd (fst (EditServer s server w)))) /\
  uniqueAddresses (Service.Servers (snd (fst (RemoveServer s host port w)))) /\
  map addressOf (Service.Servers (snd (fst (EditServer s server w))))
  = map addressOf (Service.Servers s).
Proof.
  intros Hu. rewrite AddServer_run, EditServer_run, RemoveServer_run.
  split; [|split; [|split]].
  - repeat case_match; simpl; try assumption.
    unfold uniqueAddresses. rewrite map_app. simpl.
    apply List.NoDup_app; [assumption|repeat constructor; simpl; tauto|].
    intros a Ha [<-|[]].
    match goal with
    | E : FindServer _ _ _ = None |- _ =>
        apply findServer_None, no_match_addressOf in E; now apply E
    end.
  - repeat case_match; simpl; try assumption.
    unfold uniqueAddresses. now rewrite map_addressOf_replaceFirst.
  - repeat case_match; simpl; try assumption.
    now apply removeFirst_unique.
  - repeat case_match; simpl; try reflexivity.
    apply map_addressOf_replaceFirst.
Qed.

Lemma serverError_checks port server :
  serverError port server = None <->
  Server_Validate server = None /\ portRuleBroken port server = false.
Proof.
  unfold serverError. destruct (Server_Validate server); [split; [discriminate|tauto]|].
  destruct (portRuleBroken port server); split; try discriminate; try tauto; auto.
  now intros [_ ?].
Qed.

Lemma replaceFirst_Forall (P : Server.t -> Prop) servers host port server :
  Forall P servers -> P server -> Forall P (replaceFirst servers host port server).
Proof.
  intros Hall Hs. induction Hall as [|x rest Hx Hrest IH]; simpl; [constructor|].
  destruct (sameAddress x host port); constructor; assumption.
Qed.

Lemma removeFirst_Forall (P : Server.t -> Prop) servers host port :
  Forall P servers -> Forall P (removeFirst servers host port).
Proof.
  intros Hall. induction Hall as [|x rest Hx Hrest IH]; simpl; [constructor|].
  destruct (sameAddress x host port); [assumption|now constructor].
Qed.

(** X4: a service that passes [Validate] still passes it after
    [AddServer], [EditServer] and [RemoveServer], whatever their
    outcome: a server enters the list only after its own validation
    and the port rule. *)
Theorem X4_Validate_kept (s : Service.t) (server : Server.t)
    (host : string) (port : Z) (w : World) :
  Service_Validate s = None ->
  Service_Validate (snd (fst (AddServer s server w))) = None /\
  Service_Validate (snd (fst (EditServer s server w))) = None /\
  Service_Validate (snd (fst (RemoveServer s host port w))) = None.
Proof.
  intros Hv.
  assert (Hk : forall servers,
             Forall (fun x => serverError (Service.Port s) x = None) servers ->
             Service_Validate (Service.withServers s servers) = None).
  { intros servers Hall. revert Hv. unfold Service_Validate. simpl.
    destruct (mapHas ServiceTypeFlag _); [|discriminate].
    destruct (mapHas ServiceSchedulerFlag _); [|discriminate]. simpl.
    intros _. now apply validateServers_None. }
  assert (Hs : Forall (fun x => serverError (Service.Port s) x = None)
                 (Service.Servers s)).
  { revert Hv. unfold Service_Validate.
    destruct (mapHas ServiceTypeFlag _); [|discriminate].
    destruct (mapHas ServiceSchedulerFlag _); [|discriminate]. simpl.
    apply validateServers_None. }
  rewrite AddServer_run, EditServer_run, RemoveServer_run.
  split; [|split].
  - destruct (Server_Validate server) eqn:Ev; [assumption|].
    destruct (portRuleBroken (Service.Port s) server) eqn:Ep; [assumption|].
    repeat case_match; simpl; try assumption.
    apply Hk, Forall_app. split; [assumption|]. constructor; [|constructor].
    now apply serverError_checks.
  - destruct (Server_Validate server) eqn:Ev; [assumption|].
    destruct (portRuleBroken (Service.Port s) server) eqn:Ep; [assumption|].
    repeat case_match; simpl; try assumption.
    apply Hk, replaceFirst_Forall; [assumption|]. now apply serverError_checks.
  - repeat case_match; simpl; try assumption.
    now apply Hk, removeFirst_Forall.
Qed.

(** X5: when no server of the service has the address of [server], a
    call of [AddServer] that returns nil followed by a call of
    [RemoveServer] for that address that returns nil gives the service
    back as it was. *)
Theorem X5_Add_then_Remove (s s1 s2 : Service.t) (server : Server.t) (w w1 w2 : World) :
  FindServer s (Server.Host server) (Server.Port server) = None ->
  AddServer s server w = (None, s1, w1) ->
  RemoveServer s1 (Server.Host server) (Server.Port server) w1 = (None, s2, w2) ->
  s2 = s.
Proof.
  intros Hf. rewrite AddServer_run, RemoveServer_run, Hf.
  repeat case_match; try discriminate.
  intros [= <- <-]. repeat case_match; try discriminate.
  intros [= <- _]. simpl.
  rewrite removeFirst_app_last by now apply findServer_None.
  now destruct s.
Qed.

Lemma findServer_app_fresh servers r :
  findServer servers (Server.Host r) (Server.Port r) = None ->
  findServer (servers ++ [r]) (Server.Host r) (Server.Port r) = Some r.
Proof.
  induction servers as [|x rest IH]; simpl.
  - now rewrite sameAddress_refl.
  - destruct (sameAddress x _ _); [discriminate|exact IH].
Qed.

(** X6: after a call of [AddServer] that returns nil, [FindServer]
    finds at the address of the server the one that was there before,
    or the server itself when there was none; after a call of
    [EditServer] that returns nil, [FindServer] returns the given
    server when there was a server at its address, and nil as before
    otherwise. *)
Theorem X6_lookup_after_update (s s' : Service.t) (server : Server.t) (w w' : World) :
  (AddServer s server w = (None, s', w') ->
   FindServer s' (Server.Host server) (Server.Port server)
   = match FindServer s (Server.Host server) (Server.Port server) with
     | Some old => Some old
     | None => Some server
     end) /\
  (EditServer s server w = (None, s', w') ->
   FindServer s' (Server.Host server) (Server.Port server)
   = match FindServer s (Server.Host server) (Server.Port server) with
     | Some _ => Some server
     | None => None
     end).
Proof.
  rewrite AddServer_run, EditServer_run. split.
  - destruct (Server_Validate server); [discriminate|].
    destruct (portRuleBroken _ _); [discriminate|].
    destruct (FindServer s _ _) as [old|] eqn:Hf.
    + intros [= <- <-]. exact Hf.
    + destruct (execute w _); [discriminate|]. intros [= <- <-].
      now apply findServer_app_fresh.
  - repeat case_match; try discriminate; intros [= <- <-];
      unfold FindServer in *; simpl;
      rewrite findServer_replaceFirst; now case_match.
Qed.

(** X7: in a service without two servers at one address, after a call
    of [RemoveServer] that returns nil no server has the address any
    more. *)
Theorem X7_lookup_after_Remove (s s' : Service.t) (host : string) (port : Z)
    (w w' : World) :
  uniqueAddresses (Service.Servers s) ->
  RemoveServer s host port w = (None, s', w') ->
  FindServer s' host port = None.
Proof.
  intros Hu. rewrite RemoveServer_run.
  case_match; [discriminate|]. intros [= <- _]. unfold FindServer. simpl.
  apply findServer_None, no_match_addressOf. now apply removeFirst_unique.
Qed.

Lemma length_replaceFirst servers host port server :
  length (replaceFirst servers host port server) = length servers.
Proof.
  induction servers as [|x rest IH]; simpl; [reflexivity|].
  destruct (sameAddress x host port); simpl; [reflexivity|now rewrite IH].
Qed.

Lemma length_removeFirst servers host port :
  length (removeFirst servers host port)
  = match findServer servers host port with
    | Some _ => Nat.pred (length servers)
    | None => length servers
    end.
Proof.
  induction servers as [|x rest IH]; simpl; [reflexivity|].
  destruct (sameAddress x host port); simpl; [reflexivity|].
  rewrite IH. destruct (findServer rest host port) eqn:E; [|reflexivity].
  destruct rest; [discriminate E|reflexivity].
Qed.

(** X18: the number of servers after a call that returns nil:
    [AddServer] adds one unless a server is at the address already,
    [EditServer] keeps the number, and [RemoveServer] takes one away
    when a server is at the address and none otherwise. *)
Theorem X18_number_of_servers (s s' : Service.t) (server : Server.t)
    (host : string) (port : Z) (w w' : World) :
  (AddServer s server w = (None, s', w') ->
   length (Service.Servers s')
   = match FindServer s (Server.Host server) (Server.Port server) with
     | Some _ => length (Service.Servers s)
     | None => S (length (Service.Servers s))
     end) /\
  (EditServer s server w = (None, s', w') ->
   length (Service.Servers s') = length (Service.Servers s)) /\
  (RemoveServer s host port w = (None, s', w') ->
   length (Service.Servers s')
   = match FindServer s host port with
     | Some _ => Nat.pred (length (Service.Servers s))
     | None => length (Service.Servers s)
     end).
Proof.
  rewrite AddServer_run, EditServer_run, RemoveServer_run. split; [|split].
  - repeat case_match; try discriminate; intros [= <- <-]; simpl; try reflexivity.
    rewrite length_app. simpl. lia.
  - repeat case_match; try discriminate; intros [= <- <-]; simpl.
    apply length_replaceFirst.
  - case_match; [discriminate|]. intros [= <- <-]. simpl.
    apply length_removeFirst.
Qed.

(** X8: two calls of [EditServer] with the same server that return nil
    leave the service as the first call left it. *)
Theorem X8_Edit_twice (s s1 s2 : Service.t) (server : Server.t) (w w1 w2 : World) :
  EditServer s server w = (None, s1, w1) ->
  EditServer s1 server w1 = (None, s2, w2) ->
  s2 = s1.
Proof.
  rewrite !EditServer_run.
  repeat case_match; try discriminate. intros [= <- <-].
  repeat case_match; try discriminate. intros [= <-]. simpl.
  now rewrite replaceFirst_again.
Qed.

End MoreOperations.

(** ** Further properties of the parser and of the text *)

Lemma Split_around_sep a b sep :
  Go.Split (a +:+ String sep b) sep = Go.Split a sep ++ Go.Split b sep.
Proof.
  rewrite GoFacts.Split_app, GoFacts.Split_cons_sep. cbn [hd tl].
  rewrite GoFacts.app_nil_r.
  pose proof (GoFacts.Split_nonempty a sep) as Hne.
  rewrite (app_removelast_last "" Hne) at 3.
  now rewrite <- app_assoc.
Qed.

Lemma concat_cons sep x l :
  l <> [] -> String.concat sep (x :: l) = x +:+ sep +:+ String.concat sep l.
Proof. now destruct l. Qed.

Lemma Join_Split s sep : Go.Join (Go.Split s sep) (String sep "") = s.
Proof.
  unfold Go.Join. induction s as [|x r IH]; [reflexivity|].
  pose proof (GoFacts.Split_nonempty r sep) as Hne.
  destruct (Ascii.eqb_spec x sep) as [->|Hx].
  - rewrite GoFacts.Split_cons_sep, concat_cons, IH by assumption. reflexivity.
  - rewrite GoFacts.Split_cons_other by assumption.
    rewrite GoFacts.Split_hd_tl in IH.
    destruct (tl (Go.Split r sep)) as [|t ts].
    + simpl in *. now rewrite IH.
    + rewrite concat_cons in * by discriminate.
      rewrite GoFacts.app_cons. now rewrite IH.
Qed.

Lemma parseStep_Servers tok next service service' :
  parseStep tok next service = Some service' ->
  Service.Servers service' = Service.Servers service.
Proof.
  unfold parseStep. repeat case_match; destruct next; simpl;
    intros [= <-]; reflexivity.
Qed.

Lemma parseTokens_Servers exploded service service' :
  parseTokens exploded service = Some service' ->
  Service.Servers service' = Service.Servers service.
Proof.
  revert service. induction exploded as [|tok rest IH]; intros service; simpl.
  - now intros [= <-].
  - destruct (parseStep tok (head rest) service) as [s1|] eqn:E; [|discriminate].
    intros Hr. apply IH in Hr. apply parseStep_Servers in E. congruence.
Qed.

Lemma parseTokens_no_flag exploded service :
  Forall (fun tok => isFlag tok = false) exploded ->
  parseTokens exploded service = Some service.
Proof.
  intros Hall. induction Hall as [|tok rest Ht _ IH]; simpl; [reflexivity|].
  now rewrite parseStep_other.
Qed.

Lemma parseTokens_last_pair front flag arg service :
  isFlag arg = false ->
  exists service1 service',
    parseStep flag (Some arg) service1 = Some service' /\
    parseTokens (front ++ [flag; arg]) service = Some service'.
Proof.
  intros Ha. revert service. induction front as [|tok rest IH]; intros service.
  - simpl. pose proof (parseStep_with_next flag arg service) as Hs.
    destruct (parseStep flag (Some arg) service) as [s'|] eqn:E; [|contradiction].
    exists service, s'. split; [assumption|]. now rewrite parseStep_other.
  - cbn [app parseTokens].
    assert (Hh : exists nxt, head (rest ++ [flag; arg]) = Some nxt)
      by (destruct rest; simpl; eauto).
    destruct Hh as [nxt ->].
    pose proof (parseStep_with_next tok nxt service) as Hs.
    destruct (parseStep tok (Some nxt) service) as [s1|]; [|contradiction].
    apply IH.
Qed.

Lemma flags_no_space flag : In flag flags -> Go.IndexByte flag " " = None.
Proof. simpl. intuition (subst; reflexivity). Qed.

(** X9: [parseService] fails, by reading past the end of the tokens,
    exactly on the inputs whose last token between spaces is a flag; on
    every other input it returns a record. *)
Theorem X9_parseService_fails_iff (serviceString : string) :
  parseService serviceString = None <->
  exists front tok, Go.Split serviceString " " = front ++ [tok] /\ isFlag tok = true.
Proof. apply parseService_None. Qed.

(** X10: the record that [parseService] returns never has servers;
    and on an input without any flag token, the empty input among
    them, it is the record of the defaults: type "tcp", scheduler
    "wlc", persistence 300, no host, port 0, no netmask. *)
Theorem X10_parseService_defaults (serviceString : string) :
  (forall s', parseService serviceString = Some s' -> Service.Servers s' = []) /\
  (Forall (fun tok => isFlag tok = false) (Go.Split serviceString " ") ->
   parseService serviceString = Some (Service.mk "" 0 "tcp" "wlc" 300 "" [])).
Proof.
  rewrite parseService_tokens. split.
  - intros s' Hs. now apply parseTokens_Servers in Hs.
  - apply parseTokens_no_flag.
Qed.

(** X11: the last flag wins.  When an input ends with a flag and a
    value that has no space and is no flag itself, [parseService]
    returns a record, whatever comes before, and the field of the flag
    holds the value: the scheduler, the netmask, the number after [-p]
    (300 when it is no number), or the type with the host and port
    that [parseHostPort] reads in the value. *)
Theorem X11_last_flag_wins (front flag arg : string) :
  In flag flags -> Go.IndexByte arg " " = None -> isFlag arg = false ->
  exists s',
    parseService (front +:+ " " +:+ flag +:+ " " +:+ arg) = Some s' /\
    (isCase flag ["-s"; "--scheduler"] = true -> Service.Scheduler s' = arg) /\
    (isCase flag ["-M"; "--netmask"] = true -> Service.Netmask s' = arg) /\
    (isCase flag ["-p"; "--persistent"] = true ->
     Service.Persistence s' = default 300 (Go.Atoi arg)) /\
    (forall ty labels,
       In (ty, labels) [("tcp", ["-t"; "--tcp-service"]);
                        ("udp", ["-u"; "--udp-service"]);
                        ("fwmark", ["-f"; "--fwmark-service"])] ->
       isCase flag labels = true ->
       Service.Type_ s' = ty /\
       (Service.Host s', Service.Port s') = parseHostPort arg).
Proof.
  intros Hflag Harg Hnf.
  assert (Htok : Go.Split (front +:+ " " +:+ flag +:+ " " +:+ arg) " "
                 = Go.Split front " " ++ [flag; arg]).
  { change (front +:+ " " +:+ flag +:+ " " +:+ arg)
      with (front +:+ String " " (flag +:+ " " +:+ arg)).
    rewrite Split_around_sep, Split_word by now apply flags_no_space.
    rewrite (GoFacts.Split_single arg) by assumption. reflexivity. }
  destruct (parseTokens_last_pair (Go.Split front " ") flag arg
              (Service.mk "" 0 "tcp" "wlc" 300 "" []) Hnf)
    as (s1 & s' & Hstep & Hrun).
  exists s'. rewrite parseService_tokens, Htok. split; [exact Hrun|].
  assert (Hlabel : forall a b, isCase flag [a; b] = true -> flag = a \/ flag = b).
  { intros a b. unfold isCase. cbn [existsb]. rewrite !orb_true_iff, !String.eqb_eq.
    intuition discriminate. }
  split; [|split; [|split]]; [| | |intros ty labels Hin Hc; split].
  - intros Hc. apply Hlabel in Hc as [->| ->];
      (change (Some (Service.withScheduler s1 arg) = Some s') in Hstep;
       now injection Hstep as <-).
  - intros Hc. apply Hlabel in Hc as [->| ->];
      (change (Some (Service.withNetmask s1 arg) = Some s') in Hstep;
       now injection Hstep as <-).
  - intros Hc. apply Hlabel in Hc as [->| ->];
      (change (Some (Service.withPersistence s1
                       match Go.Atoi arg with Some n => n | None => 300 end)
               = Some s') in Hstep;
       injection Hstep as <-; simpl; now destruct (Go.Atoi arg)).
  - destruct Hin as [[= <- <-]|[[= <- <-]|[[= <- <-]|[]]]];
      apply Hlabel in Hc as [->| ->];
      match goal with
      | |- Service.Type_ _ = ?ty =>
          change (Some (Service.withHostPort (Service.withType s1 ty) (parseHostPort arg))
                  = Some s') in Hstep
      end; now injection Hstep as <-.
  - destruct Hin as [[= <- <-]|[[= <- <-]|[[= <- <-]|[]]]];
      apply Hlabel in Hc as [->| ->];
      match goal with
      | |- _ = parseHostPort _ =>
          first
            [ change (Some (Service.withHostPort (Service.withType s1 "tcp")
                              (parseHostPort arg)) = Some s') in Hstep
            | change (Some (Service.withHostPort (Service.withType s1 "udp")
                              (parseHostPort arg)) = Some s') in Hstep
            | change (Some (Service.withHostPort (Service.withType s1 "fwmark")
                              (parseHostPort arg)) = Some s') in Hstep ]
      end; injection Hstep as <-; simpl; now destruct (parseHostPort arg).
Qed.

Lemma IndexByte_app_first a b c :
  Go.IndexByte a c = None -> Go.IndexByte (a +:+ String c b) c = Some (String.length a).
Proof.
  induction a as [|x a IH]; intros Ha.
  - rewrite GoFacts.app_nil_l. simpl. now rewrite Ascii.eqb_refl.
  - apply GoFacts.IndexByte_cons_None in Ha as [Hx Ha].
    rewrite GoFacts.app_cons. simpl.
    destruct (Ascii.eqb_spec x c); [contradiction|]. now rewrite IH.
Qed.

Lemma FormatInt_plain n c :
  In c [":"%char; "["%char; "]"%char; " "%char] -> Go.IndexByte (Go.FormatInt n) c = None.
Proof.
  intros Hc. apply GoFacts.FormatInt_bytes. simpl in Hc.
  destruct Hc as [<-|[<-|[<-|[<-|[]]]]]; split; (reflexivity || discriminate).
Qed.

Lemma SplitHostPort_brackets h p :
  Go.IndexByte h "[" = None -> Go.IndexByte h "]" = None ->
  Go.IndexByte p ":" = None -> Go.IndexByte p "[" = None -> Go.IndexByte p "]" = None ->
  Go.SplitHostPort ("[" +:+ h +:+ "]" +:+ ":" +:+ p) = Some (h, p).
Proof.
  intros Hho Hhe Hpc Hpo Hpe.
  set (hostport := "[" +:+ h +:+ "]" +:+ ":" +:+ p).
  assert (E1 : hostport = String "[" (h +:+ String "]" (String ":" p)))
    by reflexivity.
  assert (E2 : hostport = ("[" +:+ h +:+ "]") +:+ String ":" p)
    by (rewrite !GoFacts.app_assoc; reflexivity).
  assert (E3 : hostport = ("[" +:+ h +:+ "]:") +:+ p)
    by (rewrite !GoFacts.app_assoc; reflexivity).
  assert (L2 : String.length ("[" +:+ h +:+ "]") = (String.length h + 2)%nat)
    by (rewrite GoFacts.app_cons, GoFacts.app_nil_l; simpl;
        rewrite GoFacts.length_app; simpl; lia).
  assert (L3 : String.length ("[" +:+ h +:+ "]:") = (String.length h + 3)%nat)
    by (rewrite GoFacts.app_cons, GoFacts.app_nil_l; simpl;
        rewrite GoFacts.length_app; simpl; lia).
  clearbody hostport.
  assert (Hlast : Go.LastIndexByte hostport ":" = Some (String.length h + 2)%nat).
  { rewrite E2, GoFacts.LastIndexByte_app by assumption. now rewrite L2. }
  assert (Hend : Go.IndexByte hostport "]" = Some (String.length h + 1)%nat).
  { rewrite E1. simpl. rewrite IndexByte_app_first by assumption. simpl. f_equal. lia. }
  assert (Hlen : String.length hostport = (String.length h + 3 + String.length p)%nat).
  { rewrite E3, GoFacts.length_app, L3. reflexivity. }
  assert (Hb : match hostport with
               | String c _ => Ascii.eqb c "["
               | EmptyString => false
               end = true) by now rewrite E1.
  unfold Go.SplitHostPort. rewrite Hlast, Hb, Hend, Hlen.
  replace (String.length h + 1 + 1 =? String.length h + 3 + String.length p)%nat
    with false by (symmetry; apply Nat.eqb_neq; lia).
  replace (String.length h + 1 + 1 =? String.length h + 2)%nat
    with true by (symmetry; apply Nat.eqb_eq; lia).
  unfold Go.slice, Go.sliceFrom. rewrite Hlen.
  assert (Hhost : String.substring 1 (String.length h + 1 - 1) hostport = h).
  { rewrite E1. replace (String.length h + 1 - 1)%nat with (String.length h) by lia.
    simpl. apply GoFacts.substring_prefix. }
  assert (Hj : String.substring 1 (String.length h + 3 + String.length p - 1) hostport
               = h +:+ String "]" (String ":" p)).
  { rewrite E1.
    replace (String.length h + 3 + String.length p - 1)%nat
      with (String.length (h +:+ String "]" (String ":" p)))
      by (rewrite GoFacts.length_app; simpl; lia).
    simpl. apply GoFacts.substring_all. }
  assert (Hk : String.substring (String.length h + 1 + 1)
                 (String.length h + 3 + String.length p - (String.length h + 1 + 1))
                 hostport
               = String ":" p).
  { rewrite E2.
    replace (String.length h + 1 + 1)%nat with (String.length ("[" +:+ h +:+ "]"))
      by (rewrite L2; lia).
    rewrite GoFacts.substring_skip.
    replace (String.length h + 3 + String.length p - String.length ("[" +:+ h +:+ "]"))%nat
      with (String.length (String ":" p)) by (rewrite L2; simpl; lia).
    apply GoFacts.substring_all. }
  assert (Hport : String.substring (String.length h + 2 + 1)
                    (String.length h + 3 + String.length p - (String.length h + 2 + 1))
                    hostport
                  = p).
  { rewrite E3.
    replace (String.length h + 2 + 1)%nat with (String.length ("[" +:+ h +:+ "]:"))
      by (rewrite L3; lia).
    rewrite GoFacts.substring_skip.
    replace (String.length h + 3 + String.length p - String.length ("[" +:+ h +:+ "]:"))%nat
      with (String.length p) by (rewrite L3; lia).
    apply GoFacts.substring_all. }
  rewrite Hhost, Hj, Hk, Hport.
  assert (Ho : Go.IndexByte (h +:+ String "]" (String ":" p)) "[" = None).
  { apply GoFacts.IndexByte_app_None. split; [assumption|].
    apply GoFacts.IndexByte_cons_None. split; [discriminate|].
    apply GoFacts.IndexByte_cons_None. split; [discriminate|assumption]. }
  assert (He : Go.IndexByte (String ":" p) "]" = None).
  { apply GoFacts.IndexByte_cons_None. split; [discriminate|assumption]. }
  now rewrite Ho, He.
Qed.

Lemma SplitHostPort_colons h p :
  Go.IndexByte h ":" <> None -> Go.IndexByte h "[" = None ->
  Go.IndexByte p ":" = None ->
  Go.SplitHostPort (h +:+ String ":" p) = None.
Proof.
  intros Hc Ho Hp. unfold Go.SplitHostPort.
  rewrite GoFacts.LastIndexByte_app by assumption.
  assert (Hb : match h +:+ String ":" p with
               | String c _ => Ascii.eqb c "["
               | EmptyString => false
               end = false).
  { destruct h as [|x r]; [reflexivity|]. rewrite GoFacts.app_cons.
    apply GoFacts.IndexByte_cons_None in Ho as [Hx _].
    now destruct (Ascii.eqb_spec x "["). }
  rewrite Hb. unfold Go.slice. rewrite Nat.sub_0_r, GoFacts.substring_prefix.
  now destruct (Go.IndexByte h ":").
Qed.

Section MoreText.

Context `{Collaborators}.

(** X12: the address that [getHostPort] prints is read back by
    [parseHostPort] as the host and port of the service, when the host
    has no colon and no square bracket and the port is an [int]. *)
Theorem X12_getHostPort_read_back (s : Service.t) :
  Go.IndexByte (Service.Host s) ":" = None ->
  Go.IndexByte (Service.Host s) "[" = None ->
  Go.IndexByte (Service.Host s) "]" = None ->
  Go.isInt (Service.Port s) = true ->
  parseHostPort (getHostPort s) = (Service.Host s, Service.Port s).
Proof.
  intros Hc Ho He Hp. unfold getHostPort, parseHostPort.
  destruct (Z.eqb_spec (Service.Port s) 0) as [H0|Hne].
  - rewrite GoFacts.SplitHostPort_no_colon by assumption. now rewrite H0.
  - rewrite GoFacts.app_cons, GoFacts.app_nil_l.
    rewrite GoFacts.SplitHostPort_join;
      try assumption; try (apply FormatInt_plain; simpl; tauto).
    now rewrite GoFacts.Atoi_FormatInt.
Qed.

(** X13: hosts that are not read back, for a port that is not 0.  A
    host in square brackets, as for an IPv6 address, is read back
    without the brackets; a host with a colon and without brackets is
    not split at all: the whole address is returned as the host, with
    port 0. *)
Theorem X13_getHostPort_IPv6 (s : Service.t) (h : string) :
  Service.Port s <> 0 -> Go.isInt (Service.Port s) = true ->
  (Service.Host s = "[" +:+ h +:+ "]" ->
   Go.IndexByte h "[" = None -> Go.IndexByte h "]" = None ->
   parseHostPort (getHostPort s) = (h, Service.Port s)) /\
  (Go.IndexByte (Service.Host s) ":" <> None ->
   Go.IndexByte (Service.Host s) "[" = None ->
   parseHostPort (getHostPort s) = (getHostPort s, 0)).
Proof.
  intros Hne Hp. unfold getHostPort, parseHostPort.
  destruct (Z.eqb_spec (Service.Port s) 0) as [|_]; [contradiction|]. split.
  - intros -> Ho He.
    rewrite !GoFacts.app_assoc.
    rewrite SplitHostPort_brackets;
      try assumption; try (apply FormatInt_plain; simpl; tauto).
    now rewrite GoFacts.Atoi_FormatInt.
  - intros Hc Ho. rewrite GoFacts.app_cons, GoFacts.app_nil_l.
    rewrite SplitHostPort_colons;
      try assumption; try (apply FormatInt_plain; simpl; tauto).
    reflexivity.
Qed.

Lemma serverText_app s servers server :
  serverText s (servers ++ [server]) = serverText s servers +:+ serverLine s server.
Proof.
  induction servers as [|x rest IH]; simpl.
  - now rewrite GoFacts.app_nil_r.
  - now rewrite IH, GoFacts.app_assoc.
Qed.

Lemma serverText_withServers s servers l :
  serverText (Service.withServers s servers) l = serverText s l.
Proof. induction l as [|x rest IH]; [reflexivity|]. simpl. now rewrite IH. Qed.

Lemma serverLine_Join s server :
  serverLine s server
  = Go.Join (["-a"; mapIndex ServiceTypeFlag (Service.Type_ s);
              Service.Host s +:+ ":" +:+ Go.FormatInt (Service.Port s); "-r"]
             ++ Go.Split (Server_String server) " ") " " +:+ newline.
Proof.
  unfold Go.Join. cbn [app].
  pose proof (GoFacts.Split_nonempty (Server_String server) " ") as Hne.
  rewrite !concat_cons by (assumption || discriminate).
  change (String.concat " " (Go.Split (Server_String server) " "))
    with (Go.Join (Go.Split (Server_String server) " ") " ").
  rewrite Join_Split. unfold serverLine. rewrite !GoFacts.app_assoc. reflexivity.
Qed.

(** X14: a call of [AddServer] that returns nil for a server whose
    address was not there makes the text of the service one line
    longer: [-a], the type flag, the host and port of the service, [-r]
    and the tokens of the text of the server, joined by spaces.  When
    the port of the service is not 0 these are the arguments that the
    call passed to the tool. *)
Theorem X14_AddServer_adds_a_line (s s' : Service.t) (server : Server.t)
    (w w' : World) :
  FindServer s (Server.Host server) (Server.Port server) = None ->
  AddServer s server w = (None, s', w') ->
  let args :=
    ["-a"; mapIndex ServiceTypeFlag (Service.Type_ s);
     Service.Host s +:+ ":" +:+ Go.FormatInt (Service.Port s); "-r"]
    ++ Go.Split (Server_String server) " " in
  Service_String s' = Service_String s +:+ Go.Join args " " +:+ newline /\
  (Service.Port s <> 0 -> w' = w ++ [("ipvsadm", args)]).
Proof.
  intros Hf. rewrite AddServer_run, Hf.
  repeat case_match; try discriminate. intros [= <- <-]. cbv zeta. split.
  - rewrite !Service_String_text. cbn [Service.Servers Service.withServers].
    rewrite serverText_withServers, serverText_app, serverLine_Join.
    change (serviceLine (Service.withServers s (Service.Servers s ++ [server])))
      with (serviceLine s).
    now rewrite !GoFacts.app_assoc.
  - intros Hp. unfold addServerCall, getHostPort.
    now destruct (Z.eqb_spec (Service.Port s) 0).
Qed.

(** X15: for a service with a persistence and a netmask, the first
    line of the text is the argument list of [Add] joined by spaces. *)
Theorem X15_first_line_is_Add (s : Service.t) (w : World) :
  Service.Persistence s <> 0 -> Service.Netmask s <> "" ->
  exists args,
    snd (Add s w) = w ++ [("ipvsadm", args)] /\
    Service_String (Service.withServers s []) = Go.Join args " " +:+ newline.
Proof.
  intros Hp Hn. eexists. split; [reflexivity|].
  rewrite Service_String_text. cbn [Service.Servers Service.withServers serverText].
  rewrite GoFacts.app_nil_r.
  change (serviceLine (Service.withServers s [])) with (serviceLine s).
  unfold serviceLine. rewrite getPersistence_cases, getNetmask_cases.
  destruct (decide (Service.Persistence s = 0)); [contradiction|].
  destruct (decide (Service.Netmask s = "")); [contradiction|].
  unfold Go.Join. cbn [app]. rewrite !concat_cons by discriminate.
  cbn [String.concat]. rewrite !GoFacts.app_assoc. reflexivity.
Qed.

Lemma mapIndex_missing (m : gmap string string) k :
  mapHas m k = false -> mapIndex m k = "".
Proof.
  unfold mapHas, mapIndex. rewrite bool_decide_eq_false.
  destruct (m !! k); [intros Hn; elim Hn; eauto|reflexivity].
Qed.

(** X16: [Add] does not validate.  For a service of an unknown type it
    invokes the tool with the empty string where the type flag goes;
    for a service that passes [Validate] the type flag is one of [-t],
    [-u], [-f] and the scheduler is one of the ten names. *)
Theorem X16_Add_flags (s : Service.t) (w : World) :
  exists tf sf rest,
    snd (Add s w) = w ++ [("ipvsadm", "-A" :: tf :: getHostPort s :: "-s" :: sf :: rest)] /\
    (~ In (Service.Type_ s) knownTypes -> tf = "") /\
    (~ In (Service.Scheduler s) knownSchedulers -> sf = "") /\
    (Service_Validate s = None ->
     In tf ["-t"; "-u"; "-f"] /\
     In sf ["rr"; "wrr"; "lc"; "wlc"; "lblc"; "lblcr"; "dh"; "sh"; "sed"; "nq"]).
Proof.
  eexists _, _, _. split; [reflexivity|]. split; [|split].
  - intros Hty. apply mapIndex_missing.
    destruct (mapHas ServiceTypeFlag (Service.Type_ s)) eqn:E; [|reflexivity].
    now apply mapHas_ServiceTypeFlag in E.
  - intros Hsc. apply mapIndex_missing.
    destruct (mapHas ServiceSchedulerFlag (Service.Scheduler s)) eqn:E; [|reflexivity].
    now apply mapHas_ServiceSchedulerFlag in E.
  - intros Hv. destruct (Validate_known s Hv) as [Hty Hsc]. split.
    + simpl in Hty. simpl.
      repeat (destruct Hty as [<-|Hty]; [vm_compute; tauto|]). destruct Hty.
    + simpl in Hsc. simpl.
      repeat (destruct Hsc as [<-|Hsc]; [vm_compute; tauto|]). destruct Hsc.
Qed.

Lemma Split_Join elems :
  elems <> [] -> Forall (fun tok => Go.IndexByte tok " " = None) elems ->
  Go.Split (Go.Join elems " ") " " = elems.
Proof.
  unfold Go.Join. intros Hne Hall. induction Hall as [|x rest Hx Hrest IH]; [contradiction|].
  destruct rest as [|y rest].
  - simpl. now apply GoFacts.Split_single.
  - rewrite concat_cons by discriminate.
    rewrite Split_word by assumption. now rewrite IH.
Qed.

(** X19: parsing the command line of [Add], its arguments joined by
    spaces, gives the service back without its servers and with the
    defaults filled in: "tcp" and "wlc" for an empty type and
    scheduler, 300 for the persistence 0.  The netmask is read back as
    it is.  This holds for a known type and scheduler, a host without
    space, colon or bracket that is no flag when the port is 0, a port
    and a persistence that are [int]s, and a netmask without space that
    is no flag. *)
Theorem X19_parseService_of_Add (s : Service.t) (w : World) (args : list string) :
  In (Service.Type_ s) knownTypes ->
  In (Service.Scheduler s) knownSchedulers ->
  plainHost (Service.Host s) ->
  (Service.Port s = 0 -> isFlag (Service.Host s) = false) ->
  Go.isInt (Service.Port s) = true ->
  Go.isInt (Service.Persistence s) = true ->
  Go.IndexByte (Service.Netmask s) " " = None ->
  isFlag (Service.Netmask s) = false ->
  snd (Add s w) = w ++ [("ipvsadm", args)] ->
  parseService (Go.Join args " ")
  = Some (Service.mk (Service.Host s) (Service.Port s)
            (if String.eqb (Service.Type_ s) "" then "tcp" else Service.Type_ s)
            (if String.eqb (Service.Scheduler s) "" then "wlc" else Service.Scheduler s)
            (if Service.Persistence s =? 0 then 300 else Service.Persistence s)
            (Service.Netmask s) []).
Proof.
  intros Hty Hsc Hh Hf Hp Hpers Hn Hnf Hrun.
  apply app_inv_head in Hrun. injection Hrun as <-.
  destruct (typeFlag_read _ Hty) as [Htsp Htf].
  destruct (schedulerFlag_read _ Hsc) as (Hssp & Hsf & Hsr).
  destruct (getHostPort_read s Hh Hp Hf) as (Hhsp & Hhf & Hhp).
  assert (Hnum : Go.IndexByte (Go.FormatInt (Service.Persistence s)) " " = None)
    by (apply FormatInt_plain; simpl; tauto).
  rewrite parseService_tokens, Split_Join.
  - cbn [app].
    rewrite parseTokens_skip by reflexivity.
    erewrite parseTokens_step by apply Htf.
    rewrite parseTokens_skip by assumption.
    erewrite parseTokens_step by reflexivity.
    rewrite parseTokens_skip by assumption.
    rewrite Hhp, Hsr. unfold readType, readScheduler, getPersistence, getNetmask.
    destruct (Z.eqb_spec (Service.Persistence s) 0) as [Ep|Ep];
      destruct (String.eqb_spec (Service.Netmask s) "") as [En|En]; cbn [negb app].
    + simpl. now rewrite En.
    + erewrite parseTokens_step by reflexivity.
      rewrite parseTokens_skip by assumption. reflexivity.
    + erewrite parseTokens_step by reflexivity.
      rewrite GoFacts.Atoi_FormatInt by assumption.
      rewrite parseTokens_skip by apply isFlag_FormatInt.
      simpl. now rewrite En.
    + erewrite parseTokens_step by reflexivity.
      rewrite GoFacts.Atoi_FormatInt by assumption.
      rewrite parseTokens_skip by apply isFlag_FormatInt.
      erewrite parseTokens_step by reflexivity.
      rewrite parseTokens_skip by assumption. reflexivity.
  - discriminate.
  - unfold getPersistence, getNetmask.
    repeat (constructor; [first [reflexivity|assumption]|]).
    apply Forall_app. split.
    + destruct (negb _); repeat constructor. assumption.
    + destruct (negb _); repeat constructor. assumption.
Qed.

(** X17: what [parseService] reads in the text of a service with a
    known type and scheduler, when the text is readable: the host and
    the port; the type and the scheduler, "tcp" and "wlc" for the empty
    ones; the persistence, 300 for 0; the empty netmask, or a netmask
    followed by the line feed of its line and, when there are servers,
    by the [-a] of the next line; and no servers. *)
Theorem X17_parseService_of_String (s : Service.t) :
  In (Service.Type_ s) knownTypes ->
  In (Service.Scheduler s) knownSchedulers ->
  readable s ->
  parseService (Service_String s)
  = Some (Service.mk (Service.Host s) (Service.Port s)
            (if String.eqb (Service.Type_ s) "" then "tcp" else Service.Type_ s)
            (if String.eqb (Service.Scheduler s) "" then "wlc" else Service.Scheduler s)
            (if Service.Persistence s =? 0 then 300 else Service.Persistence s)
            (if String.eqb (Service.Netmask s) "" then ""
             else Service.Netmask s +:+ newline
                  +:+ match Service.Servers s with [] => "" | _ :: _ => "-a" end)
            []).
Proof. apply parseService_String. Qed.

End MoreText.

(** ** Examples for the further properties *)

Lemma exampleService_unique : uniqueAddresses (Service.Servers exampleService).
Proof.
  unfold uniqueAddresses. simpl.
  repeat (constructor; [simpl; intuition discriminate|]). constructor.
Qed.

Lemma X2_witness :
  fst (fst (@AddServer flakyTool emptyService exampleServer [])) <> None /\
  snd (fst (@AddServer flakyTool emptyService exampleServer [])) = emptyService.
Proof.
  assert (He : fst (fst (@AddServer flakyTool emptyService exampleServer [])) <> None)
    by discriminate.
  split; [exact He|].
  exact (proj2 (proj1 (@X2_errors_leave_record flakyTool emptyService exampleServer
                         "" 0 [])) He).
Defined.

Lemma X3_witness :
  uniqueAddresses (Service.Servers exampleService) /\
  uniqueAddresses
    (Service.Servers
       (snd (fst (@AddServer obligingTool exampleService
                    (Server.mk "10.0.0.4" 80 "g" 1) [])))).
Proof.
  split; [exact exampleService_unique|].
  exact (proj1 (@X3_unique_addresses_kept obligingTool exampleService
                  (Server.mk "10.0.0.4" 80 "g" 1) "" 0 [] exampleService_unique)).
Defined.

Lemma X4_witness :
  @Service_Validate obligingTool exampleService = None /\
  @Service_Validate obligingTool
    (snd (fst (@AddServer obligingTool exampleService
                 (Server.mk "10.0.0.4" 80 "g" 1) []))) = None.
Proof.
  assert (Hv : @Service_Validate obligingTool exampleService = None)
    by (vm_compute; reflexivity).
  split; [exact Hv|].
  exact (proj1 (@X4_Validate_kept obligingTool exampleService
                  (Server.mk "10.0.0.4" 80 "g" 1) "" 0 [] Hv)).
Defined.

Lemma X5_witness :
  let s1 := Service.withServers emptyService [exampleServer] in
  let w1 := [@addServerCall obligingTool emptyService exampleServer] in
  let w2 := w1 ++ [removeServerCall s1 "10.0.0.2" 80] in
  FindServer emptyService "10.0.0.2" 80 = None /\
  @AddServer obligingTool emptyService exampleServer [] = (None, s1, w1) /\
  @RemoveServer obligingTool s1 "10.0.0.2" 80 w1 = (None, emptyService, w2) /\
  emptyService = emptyService.
Proof.
  intros s1 w1 w2.
  split; [reflexivity|]. split; [reflexivity|]. split; [reflexivity|].
  exact (@X5_Add_then_Remove obligingTool emptyService s1 emptyService exampleServer
           [] w1 w2 eq_refl eq_refl eq_refl).
Defined.

Lemma X6_witness :
  let s1 := Service.withServers emptyService [exampleServer] in
  let w1 := [@addServerCall obligingTool emptyService exampleServer] in
  @AddServer obligingTool emptyService exampleServer [] = (None, s1, w1) /\
  FindServer s1 "10.0.0.2" 80 = Some exampleServer.
Proof.
  intros s1 w1. split; [reflexivity|].
  exact (proj1 (@X6_lookup_after_update obligingTool emptyService s1 exampleServer
                  [] w1) eq_refl).
Defined.

Lemma X7_witness :
  let s' := Service.withServers exampleService [exampleGateway] in
  let w' := [removeServerCall exampleService "10.0.0.2" 80] in
  uniqueAddresses (Service.Servers exampleService) /\
  @RemoveServer obligingTool exampleService "10.0.0.2" 80 [] = (None, s', w') /\
  FindServer s' "10.0.0.2" 80 = None.
Proof.
  intros s' w'. split; [exact exampleService_unique|]. split; [reflexivity|].
  exact (@X7_lookup_after_Remove obligingTool exampleService s' "10.0.0.2" 80 [] w'
           exampleService_unique eq_refl).
Defined.

Lemma X8_witness :
  let r := Server.mk "10.0.0.2" 80 "g" 5 in
  let s1 := Service.withServers exampleService [r; exampleGateway] in
  let w1 := [@editServerCall obligingTool exampleService r] in
  let w2 := w1 ++ [@editServerCall obligingTool s1 r] in
  @EditServer obligingTool exampleService r [] = (None, s1, w1) /\
  @EditServer obligingTool s1 r w1 = (None, s1, w2) /\
  s1 = s1.
Proof.
  intros r s1 w1 w2. split; [reflexivity|]. split; [reflexivity|].
  exact (@X8_Edit_twice obligingTool exampleService s1 s1 r [] w1 w2 eq_refl eq_refl).
Defined.

Lemma X10_witness :
  Forall (fun tok => isFlag tok = false) (Go.Split "" " ") /\
  parseService "" = Some (Service.mk "" 0 "tcp" "wlc" 300 "" []).
Proof.
  assert (Hn : Forall (fun tok => isFlag tok = false) (Go.Split "" " "))
    by (repeat constructor).
  split; [exact Hn|].
  exact (proj2 (X10_parseService_defaults "") Hn).
Defined.

Lemma X11_witness :
  In "-s" flags /\ Go.IndexByte "rr" " " = None /\ isFlag "rr" = false /\
  exists s',
    parseService "-A -t 10.0.0.1:80 -s wlc -s rr" = Some s' /\
    Service.Scheduler s' = "rr".
Proof.
  assert (Hf : In "-s" flags) by (simpl; tauto).
  split; [exact Hf|]. split; [reflexivity|]. split; [reflexivity|].
  destruct (X11_last_flag_wins "-A -t 10.0.0.1:80 -s wlc" "-s" "rr" Hf eq_refl eq_refl)
    as (s' & Hparse & Hsched & _).
  exists s'. split; [exact Hparse|exact (Hsched eq_refl)].
Defined.

Lemma X12_witness :
  Go.IndexByte (Service.Host exampleService) ":" = None /\
  Go.IndexByte (Service.Host exampleService) "[" = None /\
  Go.IndexByte (Service.Host exampleService) "]" = None /\
  Go.isInt (Service.Port exampleService) = true /\
  parseHostPort (getHostPort exampleService) = ("10.0.0.1", 80).
Proof.
  repeat (split; [reflexivity|]).
  exact (X12_getHostPort_read_back exampleService eq_refl eq_refl eq_refl eq_refl).
Defined.

Lemma X13_witness :
  let s := Service.mk "[::1]" 80 "tcp" "wlc" 0 "" [] in
  Service.Port s <> 0 /\ Go.isInt (Service.Port s) = true /\
  Service.Host s = "[" +:+ "::1" +:+ "]" /\
  Go.IndexByte "::1" "[" = None /\ Go.IndexByte "::1" "]" = None /\
  parseHostPort (getHostPort s) = ("::1", 80).
Proof.
  intros s. assert (Hp : Service.Port s <> 0) by discriminate.
  split; [exact Hp|]. repeat (split; [reflexivity|]).
  exact (proj1 (X13_getHostPort_IPv6 s "::1" Hp eq_refl) eq_refl eq_refl eq_refl).
Defined.

Lemma X14_witness :
  let s1 := Service.withServers emptyService [exampleServer] in
  let args := ["-a"; "-t"; "10.0.0.1:80"; "-r"; "10.0.0.2:80"; "-g"; "-w"; "1"] in
  FindServer emptyService "10.0.0.2" 80 = None /\
  @AddServer obligingTool emptyService exampleServer [] = (None, s1, [("ipvsadm", args)]) /\
  @Service_String obligingTool s1
  = @Service_String obligingTool emptyService +:+ Go.Join args " " +:+ newline.
Proof.
  intros s1 args. split; [reflexivity|]. split; [reflexivity|].
  exact (proj1 (@X14_AddServer_adds_a_line obligingTool emptyService s1 exampleServer
                  [] [("ipvsadm", args)] eq_refl eq_refl)).
Defined.

Lemma X15_witness :
  let s := Service.mk "10.0.0.1" 80 "tcp" "wlc" 60 "255.255.255.0" [] in
  Service.Persistence s <> 0 /\ Service.Netmask s <> "" /\
  exists args,
    snd (@Add obligingTool s []) = [] ++ [("ipvsadm", args)] /\
    @Service_String obligingTool (Service.withServers s []) = Go.Join args " " +:+ newline.
Proof.
  intros s.
  assert (Hp : Service.Persistence s <> 0) by discriminate.
  assert (Hn : Service.Netmask s <> "") by discriminate.
  split; [exact Hp|]. split; [exact Hn|].
  exact (@X15_first_line_is_Add obligingTool s [] Hp Hn).
Defined.

Lemma X16_witness :
  let s := Service.mk "10.0.0.1" 80 "sctp" "wlc" 0 "" [] in
  ~ In (Service.Type_ s) knownTypes /\
  exists rest,
    snd (@Add obligingTool s []) = [("ipvsadm", "-A" :: "" :: rest)].
Proof.
  intros s.
  assert (Hty : ~ In (Service.Type_ s) knownTypes) by (simpl; intuition discriminate).
  split; [exact Hty|].
  destruct (@X16_Add_flags obligingTool s []) as (tf & sf & rest & Hrun & Htf & _).
  exists (getHostPort s :: "-s" :: sf :: rest).
  rewrite Hrun, (Htf Hty). reflexivity.
Defined.

Lemma X17_witness :
  In (Service.Type_ exampleService) knownTypes /\
  In (Service.Scheduler exampleService) knownSchedulers /\
  @readable obligingTool exampleService /\
  parseService (@Service_String obligingTool exampleService)
  = Some (Service.mk "10.0.0.1" 80 "tcp" "wlc" 60 "" []).
Proof.
  assert (Hty : In (Service.Type_ exampleService) knownTypes) by (simpl; tauto).
  assert (Hsc : In (Service.Scheduler exampleService) knownSchedulers)
    by (simpl; tauto).
  assert (Hr : @readable obligingTool exampleService).
  { unfold readable, plainHost.
    repeat split; try (vm_compute; reflexivity); try discriminate.
    repeat constructor. }
  split; [exact Hty|]. split; [exact Hsc|]. split; [exact Hr|].
  exact (@X17_parseService_of_String obligingTool exampleService Hty Hsc Hr).
Defined.

Lemma X18_witness :
  let s' := Service.withServers exampleService [exampleGateway] in
  let w' := [removeServerCall exampleService "10.0.0.2" 80] in
  @RemoveServer obligingTool exampleService "10.0.0.2" 80 [] = (None, s', w') /\
  length (Service.Servers s') = 1%nat.
Proof.
  intros s' w'. split; [reflexivity|].
  exact (proj2 (proj2 (@X18_number_of_servers obligingTool exampleService s'
                         exampleServer "10.0.0.2" 80 [] w')) eq_refl).
Defined.

Lemma X19_witness :
  let args := ["-A"; "-u"; "10.0.0.1:80"; "-s"; "wlc"; "-M"; "255.255.255.0"] in
  In (Service.Type_ maskedService) knownTypes /\
  In (Service.Scheduler maskedService) knownSchedulers /\
  plainHost (Service.Host maskedService) /\
  (Service.Port maskedService = 0 -> isFlag (Service.Host maskedService) = false) /\
  Go.isInt (Service.Port maskedService) = true /\
  Go.isInt (Service.Persistence maskedService) = true /\
  Go.IndexByte (Service.Netmask maskedService) " " = None /\
  isFlag (Service.Netmask maskedService) = false /\
  snd (@Add obligingTool maskedService []) = [] ++ [("ipvsadm", args)] /\
  parseService (Go.Join args " ")
  = Some (Service.mk "10.0.0.1" 80 "udp" "wlc" 300 "255.255.255.0" []).
Proof.
  intros args.
  assert (Hty : In (Service.Type_ maskedService) knownTypes) by (simpl; tauto).
  assert (Hsc : In (Service.Scheduler maskedService) knownSchedulers)
    by (simpl; tauto).
  assert (Hh : plainHost (Service.Host maskedService))
    by (unfold plainHost; repeat split; reflexivity).
  assert (Hf : Service.Port maskedService = 0 -> isFlag (Service.Host maskedService) = false)
    by (intros _; reflexivity).
  split; [exact Hty|]. split; [exact Hsc|]. split; [exact Hh|]. split; [exact Hf|].
  repeat (split; [reflexivity|]).
  exact (@X19_parseService_of_Add obligingTool maskedService [] args
           Hty Hsc Hh Hf eq_refl eq_refl eq_refl eq_refl eq_refl).
Defined.
